(** * mochi-plumber: NIC resolution for CXI addresses

    A shallow embedding of [src/mochi-plumber.c]: the public entry point
    [mochi_plumber_resolve_nic] and its three static helpers [select_nic],
    [select_nic_roundrobin] and [select_nic_random].

    The C code talks to three collaborators: hwloc (hardware topology),
    libfabric (NIC enumeration) and the POSIX file system (the round-robin
    counter files under [/tmp/<login>-mochi-plumber/]).  What the
    collaborators answer is gathered in an [environment] record; what the
    code changes (files, descriptors, locks, live handles, the error stream)
    is the [world], threaded explicitly through every function.

    Conventions:
    - a C [int] is a [Z]; where the code stores one in a file it is the
      four bytes of its two's complement representation (little endian,
      the byte order of the machines the library targets);
    - a C string is a [string] (the characters before the terminator);
    - a [struct bucket] is the list of its NIC names, [num_nics] its length;
    - an out-of-bounds access, a failed [assert] and a division by zero end
      the execution in [Crashes]. *)

From Stdlib Require Import ZArith Lia String Ascii List Bool.
From stdpp Require Import gmap strings list.
From coqutil Require Import Byte Word.LittleEndianList.

Local Open Scope Z_scope.
#[local] Set Warnings "-clear-no-such-hyp".

(** ** C integers *)

Module CInt.

(** Value of a 32-bit two's complement pattern given as any integer. *)
Definition wrap (z : Z) : Z := (z + 2 ^ 31) mod 2 ^ 32 - 2 ^ 31.

Definition INT_MAX : Z := 2 ^ 31 - 1.
Definition INT_MIN : Z := - 2 ^ 31.

(** The object representation of an [int]: [sizeof(int)] = 4 bytes. *)
Definition to_bytes (z : Z) : list byte := le_split 4 z.
Definition of_bytes (bs : list byte) : Z := wrap (le_combine bs).

(** [a % b] of C: the remainder has the sign of the dividend. *)
Definition rem (a b : Z) : Z := Z.rem a b.

End CInt.

(** ** libfabric: what [fi_getinfo] returns *)

Inductive fi_bus_type := FI_BUS_UNSPEC | FI_BUS_PCI.

Record fi_pci_attr := {
  domain_id : Z;
  bus_id : Z;
  device_id : Z;
  function_id : Z
}.

Record fi_bus_attr := {
  bus_type : fi_bus_type;
  attr_pci : fi_pci_attr
}.

Record fid_nic := { bus_attr : option fi_bus_attr }.

(** One node of the [fi_info] list; the list itself is a Rocq list in the
    order of the [next] pointers. *)
Record fi_info := {
  nic : option fid_nic;
  domain_attr_name : string
}.

(** ** hwloc: the topology handle *)

Definition hwloc_obj := Z.

Record hwloc_topology := {
  (** [hwloc_bitmap_weight(hwloc_topology_get_complete_nodeset(t))] *)
  complete_nodeset_weight : Z;
  (** [hwloc_get_pcidev_by_busid]; [None] is the NULL answer *)
  get_pcidev_by_busid : fi_pci_attr -> option hwloc_obj;
  (** [hwloc_bitmap_first(hwloc_get_non_io_ancestor_obj(t, dev)->nodeset)] *)
  non_io_ancestor_first_node : hwloc_obj -> Z;
  (** [hwloc_get_last_cpu_location] followed by [hwloc_cpuset_to_nodeset]
      and [hwloc_bitmap_first]; [None] when the first call fails *)
  last_cpu_first_node : option Z
}.

(** ** The environment of one call *)

Record environment := {
  topology : hwloc_topology;
  fi_getinfo_ret : Z;
  fi_getinfo_info : list fi_info;
  (** [calloc] answers NULL *)
  calloc_null : bool;
  (** [mkdir] fails with an errno other than EEXIST *)
  mkdir_error : bool;
  open_error : bool;
  (** [flock(fd, LOCK_EX)] fails (EINTR, ENOLCK, ...) *)
  flock_error : bool;
  pread_error : bool;
  pwrite_error : bool;
  (** [rand()] after [srand(getpid())] *)
  rand_value : Z
}.

(** ** The world *)

Inductive diagnostic :=
| UnknownBucketPolicy (policy : string)
| FiGetinfoError (ret : Z)
| CantFindInTopology (name : string)
| BucketHasNoNics (i : Z)
| FailedToSelectNic
| LastCpuLocationFailure
| InconsistentBucketPolicy (policy : string)
| UnknownNicPolicy (policy : string)
| Perror (call : string)
| FailedToCreateDir
| FailedToOpen (bucket_idx : Z)
| FailedToRead (bucket_idx : Z)
| FailedToWrite (bucket_idx : Z).

Record world := {
  (** [/tmp/<login>-mochi-plumber] exists *)
  scratch_dir : bool;
  (** [/tmp/<login>-mochi-plumber/<i>], keyed by [i] *)
  counter_files : gmap Z (list byte);
  (** open descriptors of the process, each with the counter file it is on *)
  fd_table : gmap Z Z;
  (** counter files on which the process holds the exclusive lock *)
  held_locks : gset Z;
  (** topology handles initialised and not yet destroyed *)
  live_topologies : nat;
  (** [fi_info] lists allocated and not yet freed *)
  live_fi_infos : nat;
  err_stream : list diagnostic
}.

(** What persists after the process is gone. *)
Definition persistent_state (w : world) : bool * gmap Z (list byte) :=
  (scratch_dir w, counter_files w).

Definition set_scratch_dir (b : bool) (w : world) : world :=
  {| scratch_dir := b; counter_files := counter_files w;
     fd_table := fd_table w; held_locks := held_locks w;
     live_topologies := live_topologies w;
     live_fi_infos := live_fi_infos w; err_stream := err_stream w |}.

Definition set_counter_files (f : gmap Z (list byte)) (w : world) : world :=
  {| scratch_dir := scratch_dir w; counter_files := f;
     fd_table := fd_table w; held_locks := held_locks w;
     live_topologies := live_topologies w;
     live_fi_infos := live_fi_infos w; err_stream := err_stream w |}.

Definition set_fd_table (t : gmap Z Z) (w : world) : world :=
  {| scratch_dir := scratch_dir w; counter_files := counter_files w;
     fd_table := t; held_locks := held_locks w;
     live_topologies := live_topologies w;
     live_fi_infos := live_fi_infos w; err_stream := err_stream w |}.

Definition set_held_locks (l : gset Z) (w : world) : world :=
  {| scratch_dir := scratch_dir w; counter_files := counter_files w;
     fd_table := fd_table w; held_locks := l;
     live_topologies := live_topologies w;
     live_fi_infos := live_fi_infos w; err_stream := err_stream w |}.

Definition set_live_topologies (n : nat) (w : world) : world :=
  {| scratch_dir := scratch_dir w; counter_files := counter_files w;
     fd_table := fd_table w; held_locks := held_locks w;
     live_topologies := n;
     live_fi_infos := live_fi_infos w; err_stream := err_stream w |}.

Definition set_live_fi_infos (n : nat) (w : world) : world :=
  {| scratch_dir := scratch_dir w; counter_files := counter_files w;
     fd_table := fd_table w; held_locks := held_locks w;
     live_topologies := live_topologies w;
     live_fi_infos := n; err_stream := err_stream w |}.

(** [fprintf(stderr, ...)] and [perror] *)
Definition eprint (d : diagnostic) (w : world) : world :=
  {| scratch_dir := scratch_dir w; counter_files := counter_files w;
     fd_table := fd_table w; held_locks := held_locks w;
     live_topologies := live_topologies w;
     live_fi_infos := live_fi_infos w; err_stream := err_stream w ++ [d] |}.

(** ** Results *)

Inductive crash := OutOfBounds | AssertionFailure | DivisionByZero.

Inductive outcome (A : Type) :=
| Returns (a : A) (w : world)
| Crashes (why : crash).
Arguments Returns {A} a w.
Arguments Crashes {A} why.

(** ** System and library calls *)

Module Sys.

Inductive mkdir_result := MkdirCreated | MkdirEEXIST | MkdirFailed.

(** [mkdir(tokenpath, 0700)] *)
Definition mkdir (e : environment) (w : world) : mkdir_result * world :=
  if mkdir_error e then (MkdirFailed, w)
  else if scratch_dir w then (MkdirEEXIST, w)
  else (MkdirCreated, set_scratch_dir true w).

(** Descriptors 0, 1 and 2 are the standard streams; the code closes no
    descriptor, so the next one is 3 plus the number it has opened. *)
Definition fresh_fd (w : world) : Z := 3 + Z.of_nat (size (fd_table w)).

(** [open(tokenpath, O_RDWR|O_CREAT|O_SYNC, 0600)] on the counter file of
    bucket [bucket_idx]: creates the file, empty, when it is absent. *)
Definition open (e : environment) (bucket_idx : Z) (w : world) : Z * world :=
  if open_error e then (-1, w)
  else
    let fd := fresh_fd w in
    let files :=
      match counter_files w !! bucket_idx with
      | Some _ => counter_files w
      | None => <[bucket_idx := []]> (counter_files w)
      end in
    (fd, set_fd_table (<[fd := bucket_idx]> (fd_table w))
           (set_counter_files files w)).

(** The counter file behind a descriptor; a negative or unknown descriptor
    is EBADF for every call below. *)
Definition fd_file (w : world) (fd : Z) : option Z :=
  if fd <? 0 then None else fd_table w !! fd.

(** [flock(fd, LOCK_EX)]; the return value is the call's. *)
Definition flock_ex (e : environment) (fd : Z) (w : world) : Z * world :=
  match fd_file w fd with
  | Some file =>
      if flock_error e then (-1, w)
      else (0, set_held_locks ({[file]} ∪ held_locks w) w)
  | None => (-1, w)
  end.

(** [flock(fd, LOCK_UN)] *)
Definition flock_un (fd : Z) (w : world) : Z * world :=
  match fd_file w fd with
  | Some file => (0, set_held_locks (held_locks w ∖ {[file]}) w)
  | None => (-1, w)
  end.

(** [pread(fd, buf, count, 0)]: the return value and the bytes read. *)
Definition pread (e : environment) (fd : Z) (count : nat) (w : world)
  : Z * list byte :=
  match fd_file w fd with
  | Some file =>
      if pread_error e then (-1, [])
      else
        let data := take count (default [] (counter_files w !! file)) in
        (Z.of_nat (length data), data)
  | None => (-1, [])
  end.

(** [pwrite(fd, buf, count, 0)] with [buf] holding [data]. *)
Definition pwrite (e : environment) (fd : Z) (data : list byte) (w : world)
  : Z * world :=
  match fd_file w fd with
  | Some file =>
      if pwrite_error e then (-1, w)
      else
        let old := default [] (counter_files w !! file) in
        (Z.of_nat (length data),
         set_counter_files
           (<[file := data ++ drop (length data) old]> (counter_files w)) w)
  | None => (-1, w)
  end.

(** [hwloc_topology_init] ... [hwloc_topology_load] *)
Definition hwloc_topology_load (w : world) : world :=
  set_live_topologies (S (live_topologies w)) w.

Definition hwloc_topology_destroy (w : world) : world :=
  set_live_topologies (Nat.pred (live_topologies w)) w.

(** [fi_allocinfo]: the hints *)
Definition fi_allocinfo (w : world) : world :=
  set_live_fi_infos (S (live_fi_infos w)) w.

(** a successful [fi_getinfo] hands a list to the caller *)
Definition fi_getinfo_alloc (w : world) : world :=
  set_live_fi_infos (S (live_fi_infos w)) w.

Definition fi_freeinfo (w : world) : world :=
  set_live_fi_infos (Nat.pred (live_fi_infos w)) w.

End Sys.

(** ** The selection engine *)

(** A [struct bucket]: [nics] in the order they were appended. *)
Abbreviation bucket := (list string).

Definition num_nics (b : bucket) : Z := Z.of_nat (length b).

(** [a[i]] for a C [int] index: defined inside the array only. *)
Definition index {A : Type} (a : list A) (i : Z) : option A :=
  if i <? 0 then None else a !! Z.to_nat i.

(** What [pread] leaves in a buffer that held [buf] before the call. *)
Definition overwrite (data buf : list byte) : list byte :=
  data ++ drop (length data) buf.

(** [select_nic_roundrobin], lines 245-294.  The result is the returned
    status and what was stored through [out_nic], if anything. *)
Definition select_nic_roundrobin (e : environment) (bucket_idx : Z)
    (b : bucket) (w : world) : outcome (Z * option string) :=
  let nic_idx := CInt.to_bytes (-1) in
  match Sys.mkdir e w with
  | (Sys.MkdirFailed, w) =>
      Returns (-1, None) (eprint FailedToCreateDir (eprint (Perror "mkdir") w))
  | (_, w) =>
      let '(fd, w) := Sys.open e bucket_idx w in
      let w :=
        if fd <? 0
        then eprint (FailedToOpen bucket_idx) (eprint (Perror "open") w)
        else w in
      (* exclusive lock; the result of the call is not looked at *)
      let '(_, w) := Sys.flock_ex e fd w in
      let '(ret, data) := Sys.pread e fd 4 w in
      if ret <? 0 then
        let w := eprint (FailedToRead bucket_idx) (eprint (Perror "pread") w) in
        let '(_, w) := Sys.flock_un fd w in
        Returns (-1, None) w
      else
        let nic_idx := overwrite data nic_idx in
        if num_nics b =? 0 then Crashes DivisionByZero
        else
          let nic_idx :=
            CInt.rem (CInt.wrap (CInt.of_bytes nic_idx + 1)) (num_nics b) in
          let '(ret, w) := Sys.pwrite e fd (CInt.to_bytes nic_idx) w in
          if ret <? 0 then
            let w :=
              eprint (FailedToWrite bucket_idx) (eprint (Perror "pwrite") w) in
            let '(_, w) := Sys.flock_un fd w in
            Returns (-1, None) w
          else
            let '(_, w) := Sys.flock_un fd w in
            match index b nic_idx with
            | Some name => Returns (0, Some name) w
            | None => Crashes OutOfBounds
            end
  end.

(** [select_nic_random], lines 296-307. *)
Definition select_nic_random (e : environment) (bucket_idx : Z)
    (b : bucket) (w : world) : outcome (Z * option string) :=
  if num_nics b =? 0 then Crashes DivisionByZero
  else
    let nic_idx := CInt.rem (rand_value e) (num_nics b) in
    match index b nic_idx with
    | Some name => Returns (0, Some name) w
    | None => Crashes OutOfBounds
    end.

(** The first half of [select_nic], lines 194-223: which bucket to draw
    from.  [inl] is the early [return(-1)]. *)
Definition select_bucket (t : hwloc_topology) (bucket_policy : string)
    (nbuckets : Z) (w : world) : outcome (Z + Z) :=
  if nbuckets =? 1 then Returns (inr 0) w
  else if String.eqb bucket_policy "numa" then
    match last_cpu_first_node t with
    | None => Returns (inl (-1)) (eprint LastCpuLocationFailure w)
    | Some bucket_idx =>
        if bucket_idx <? nbuckets then Returns (inr bucket_idx) w
        else Crashes AssertionFailure
    end
  else Returns (inl (-1)) (eprint (InconsistentBucketPolicy bucket_policy) w).

(** [select_nic], lines 188-243. *)
Definition select_nic (e : environment) (bucket_policy nic_policy : string)
    (nbuckets : Z) (buckets : list bucket) (w : world)
  : outcome (Z * option string) :=
  match select_bucket (topology e) bucket_policy nbuckets w with
  | Crashes why => Crashes why
  | Returns (inl ret) w => Returns (ret, None) w
  | Returns (inr bucket_idx) w =>
      match index buckets bucket_idx with
      | None => Crashes OutOfBounds
      | Some b =>
          if num_nics b =? 1 then
            match index b 0 with
            | Some name => Returns (0, Some name) w
            | None => Crashes OutOfBounds
            end
          else if String.eqb nic_policy "roundrobin" then
            select_nic_roundrobin e bucket_idx b w
          else if String.eqb nic_policy "random" then
            select_nic_random e bucket_idx b w
          else Returns (-1, None) (eprint (UnknownNicPolicy nic_policy) w)
      end
  end.

(** ** Building the buckets *)

(** The guard of the loop body, lines 121-122:
    [cur->nic && cur->nic->bus_attr && bus_type == FI_BUS_PCI]. *)
Definition pci_of (cur : fi_info) : option fi_pci_attr :=
  match nic cur with
  | Some n =>
      match bus_attr n with
      | Some ba =>
          match bus_type ba with
          | FI_BUS_PCI => Some (attr_pci ba)
          | FI_BUS_UNSPEC => None
          end
      | None => None
      end
  | None => None
  end.

Inductive assignment :=
| Assigned (buckets : list bucket)
| NotInTopology (name : string)
| AssignCrashes (why : crash).

(** Lines 149-152: one more name at the end of [buckets[bucket_idx]]. *)
Definition append_nic (buckets : list bucket) (bucket_idx : Z)
    (name : string) : option (list bucket) :=
  match index buckets bucket_idx with
  | Some b => Some (<[Z.to_nat bucket_idx := b ++ [name]]> buckets)
  | None => None
  end.

(** The loop over the [fi_info] list, lines 120-154.  The two ways out
    other than the end of the list are the [return(-1)] of line 135 and
    a store outside [buckets]. *)
Fixpoint assign_buckets (t : hwloc_topology) (nbuckets : Z)
    (cur : list fi_info) (buckets : list bucket) : assignment :=
  match cur with
  | [] => Assigned buckets
  | c :: next =>
      match pci_of c with
      | Some pci =>
          match get_pcidev_by_busid t pci with
          | None => NotInTopology (domain_attr_name c)
          | Some pci_dev =>
              let bucket_idx :=
                if nbuckets =? 1 then 0
                else non_io_ancestor_first_node t pci_dev in
              match append_nic buckets bucket_idx (domain_attr_name c) with
              | Some buckets => assign_buckets t nbuckets next buckets
              | None => AssignCrashes OutOfBounds
              end
          end
      | None => assign_buckets t nbuckets next buckets
      end
  end.

(** The sanity check, lines 158-166: the first [i] from [i] on with
    [buckets[i].num_nics < 1]. *)
Fixpoint first_empty_bucket (i : Z) (buckets : list bucket) : option Z :=
  match buckets with
  | [] => None
  | b :: rest =>
      if num_nics b <? 1 then Some i else first_empty_bucket (i + 1) rest
  end.

(** ** The entry point *)

(** Lines 48-49: neither prefix matches. *)
Definition not_cxi (in_address : string) : bool :=
  negb (String.prefix "cxi" in_address)
  && negb (String.prefix "ofi+cxi" in_address).

(** Lines 57-58, reached with at least three characters in [in_address]:
    one of the last two characters is not a slash. *)
Definition already_specific (in_address : string) : bool :=
  let n := String.length in_address in
  negb (bool_decide (String.get (n - 1) in_address = Some "/"%char))
  || negb (bool_decide (String.get (n - 2) in_address = Some "/"%char)).

(** Lines 71-86; [None] is the unknown policy. *)
Definition count_buckets (t : hwloc_topology) (bucket_policy : string)
  : option Z :=
  if String.eqb bucket_policy "all" then Some 1
  else if String.eqb bucket_policy "numa" then Some (complete_nodeset_weight t)
  else None.

(** [mochi_plumber_resolve_nic], lines 31-186.  The result is the returned
    status and what was stored through [out_address], if anything. *)
Definition mochi_plumber_resolve_nic (e : environment)
    (in_address bucket_policy nic_policy : string) (w : world)
  : outcome (Z * option string) :=
  if not_cxi in_address then Returns (0, Some in_address) w
  else if already_specific in_address then Returns (0, Some in_address) w
  else
    let w := Sys.hwloc_topology_load w in
    match count_buckets (topology e) bucket_policy with
    | None =>
        Returns (-1, None)
          (Sys.hwloc_topology_destroy
             (eprint (UnknownBucketPolicy bucket_policy) w))
    | Some nbuckets =>
        (* calloc: a negative count is a size no allocator grants *)
        if (nbuckets <? 0) || calloc_null e then
          Returns (-1, None) (Sys.hwloc_topology_destroy w)
        else
          let buckets : list bucket := replicate (Z.to_nat nbuckets) [] in
          let w := Sys.fi_allocinfo w in
          if negb (fi_getinfo_ret e =? 0) then
            Returns (fi_getinfo_ret e, None)
              (Sys.hwloc_topology_destroy
                 (Sys.fi_freeinfo
                    (eprint (FiGetinfoError (fi_getinfo_ret e)) w)))
          else
            let w := Sys.fi_freeinfo (Sys.fi_getinfo_alloc w) in
            match assign_buckets (topology e) nbuckets (fi_getinfo_info e)
                    buckets with
            | AssignCrashes why => Crashes why
            | NotInTopology name =>
                Returns (-1, None)
                  (Sys.hwloc_topology_destroy
                     (Sys.fi_freeinfo (eprint (CantFindInTopology name) w)))
            | Assigned buckets =>
                let w := Sys.fi_freeinfo w in
                match first_empty_bucket 0 buckets with
                | Some i =>
                    Returns (-1, None)
                      (Sys.hwloc_topology_destroy
                         (eprint (BucketHasNoNics i) w))
                | None =>
                    match select_nic e bucket_policy nic_policy nbuckets
                            buckets w with
                    | Crashes why => Crashes why
                    | Returns (ret, selected_nic) w =>
                        if ret <? 0 then
                          Returns (-1, None)
                            (Sys.hwloc_topology_destroy
                               (eprint FailedToSelectNic w))
                        else
                          let w := Sys.hwloc_topology_destroy w in
                          match selected_nic with
                          | Some name =>
                              Returns (0, Some (in_address ++ name)%string) w
                          | None => Crashes OutOfBounds
                          end
                    end
                end
            end
    end.

(** * Vocabulary of the properties *)

(** ** The persistent counter *)

(** The value a reader finds in the counter file of bucket [bucket_idx]:
    what [pread] leaves in an [int] that held -1. *)
Definition counter_value (w : world) (bucket_idx : Z) : Z :=
  CInt.of_bytes
    (overwrite (take 4 (default [] (counter_files w !! bucket_idx)))
       (CInt.to_bytes (-1))).

(** The next index the code computes from the stored one, line 281. *)
Definition next_index (w : world) (bucket_idx : Z) (b : bucket) : Z :=
  CInt.rem (CInt.wrap (counter_value w bucket_idx + 1)) (num_nics b).

(** The world a round-robin call leaves when [mkdir], [open], [pread] and
    [pwrite] succeed and [next] is stored, whether or not the lock was
    obtained. *)
Definition after_roundrobin (bucket_idx next : Z) (w : world) : world :=
  {| scratch_dir := true;
     counter_files :=
       <[bucket_idx :=
           CInt.to_bytes next
             ++ drop 4 (default [] (counter_files w !! bucket_idx))]>
         (counter_files w);
     fd_table := <[Sys.fresh_fd w := bucket_idx]> (fd_table w);
     held_locks := held_locks w ∖ {[bucket_idx]};
     live_topologies := live_topologies w;
     live_fi_infos := live_fi_infos w;
     err_stream := err_stream w |}.

(** Lines 259-293 of [select_nic_roundrobin] on their own: what the call
    does once the scratch directory is there. *)
Definition roundrobin_on_file (e : environment) (bucket_idx : Z)
    (b : bucket) (w : world) : outcome (Z * option string) :=
  let '(fd, w) := Sys.open e bucket_idx w in
  let w :=
    if fd <? 0
    then eprint (FailedToOpen bucket_idx) (eprint (Perror "open") w)
    else w in
  let '(_, w) := Sys.flock_ex e fd w in
  let '(ret, data) := Sys.pread e fd 4 w in
  if ret <? 0 then
    let w := eprint (FailedToRead bucket_idx) (eprint (Perror "pread") w) in
    let '(_, w) := Sys.flock_un fd w in
    Returns (-1, None) w
  else
    let nic_idx := overwrite data (CInt.to_bytes (-1)) in
    if num_nics b =? 0 then Crashes DivisionByZero
    else
      let nic_idx :=
        CInt.rem (CInt.wrap (CInt.of_bytes nic_idx + 1)) (num_nics b) in
      let '(ret, w) := Sys.pwrite e fd (CInt.to_bytes nic_idx) w in
      if ret <? 0 then
        let w :=
          eprint (FailedToWrite bucket_idx) (eprint (Perror "pwrite") w) in
        let '(_, w) := Sys.flock_un fd w in
        Returns (-1, None) w
      else
        let '(_, w) := Sys.flock_un fd w in
        match index b nic_idx with
        | Some name => Returns (0, Some name) w
        | None => Crashes OutOfBounds
        end.

(** No system call of the round-robin path reports an error. *)
Definition no_io_error (e : environment) : Prop :=
  mkdir_error e = false /\ open_error e = false /\ flock_error e = false
  /\ pread_error e = false /\ pwrite_error e = false.

(** A process that makes [k] round-robin calls in a row on the same bucket:
    the status and the NIC of each call, in order. *)
Fixpoint roundrobin_calls (e : environment) (bucket_idx : Z) (b : bucket)
    (k : nat) (w : world) : outcome (list (Z * option string)) :=
  match k with
  | O => Returns [] w
  | S k =>
      match select_nic_roundrobin e bucket_idx b w with
      | Crashes why => Crashes why
      | Returns r w =>
          match roundrobin_calls e bucket_idx b k w with
          | Crashes why => Crashes why
          | Returns rs w => Returns (r :: rs) w
          end
      end
  end.

(** The last character of a string, as line 57 reads it. *)
Definition last_char (s : string) : option ascii :=
  String.get (String.length s - 1) s.

(** ** Addresses and policies *)

(** The address names the supported transport family. *)
Definition names_cxi (a : string) : Prop :=
  (exists rest, a = "cxi" +:+ rest) \/ (exists rest, a = "ofi+cxi" +:+ rest).

(** The address ends with the empty-authority marker. *)
Definition unresolved (a : string) : Prop := exists pre, a = pre +:+ "//".

Definition eligible (a : string) : Prop := names_cxi a /\ unresolved a.

Definition unknown_bucket_policy (p : string) : Prop :=
  p <> "all"%string /\ p <> "numa"%string.

Definition unknown_nic_policy (p : string) : Prop :=
  p <> "roundrobin"%string /\ p <> "random"%string.

(** ** Buckets *)

(** The bucket index the loop body computes for one entry, lines 121-147;
    [None] when the entry is skipped or its device is not found. *)
Definition target (t : hwloc_topology) (nbuckets : Z) (c : fi_info)
  : option Z :=
  match pci_of c with
  | Some pci =>
      match get_pcidev_by_busid t pci with
      | Some pci_dev =>
          Some (if nbuckets =? 1 then 0
                else non_io_ancestor_first_node t pci_dev)
      | None => None
      end
  | None => None
  end.

Definition assigned_to (t : hwloc_topology) (nbuckets i : Z)
    (infos : list fi_info) : list string :=
  domain_attr_name <$> filter (fun c => target t nbuckets c = Some i) infos.

(** The affinity domain the topology maps a NIC to: the first node of the
    non-I/O ancestor of its PCI device. *)
Definition affinity_domain (t : hwloc_topology) (c : fi_info) : option Z :=
  match pci_of c with
  | Some pci => non_io_ancestor_first_node t <$> get_pcidev_by_busid t pci
  | None => None
  end.

(** The names of the enumerated NICs with PCI bus data, and of those the
    topology maps to domain [i], in enumeration order. *)
Definition pci_nics (infos : list fi_info) : list string :=
  domain_attr_name <$> filter (fun c => is_Some (pci_of c)) infos.

Definition nics_of_domain (t : hwloc_topology) (i : Z)
    (infos : list fi_info) : list string :=
  domain_attr_name <$> filter (fun c => affinity_domain t c = Some i) infos.

(** ** Exits of the entry point *)

(** The world when the enumeration is over: topology loaded, hints and
    the [fi_info] list allocated and freed again (lines 66-155). *)
Definition after_enumeration (w : world) : world :=
  Sys.fi_freeinfo
    (Sys.fi_freeinfo
       (Sys.fi_getinfo_alloc
          (Sys.fi_allocinfo (Sys.hwloc_topology_load w)))).

(** The seven [return] statements of [mochi_plumber_resolve_nic] after the
    pass-through tests, each with the condition that leads to it, the
    status, what is stored through [out_address] and the world left. *)
Inductive exit_path (e : environment) (a bucket_policy nic_policy : string)
    (w : world) : Z -> option string -> world -> Prop :=
| ExitUnknownBucketPolicy :
    count_buckets (topology e) bucket_policy = None ->
    exit_path e a bucket_policy nic_policy w (-1) None
      (Sys.hwloc_topology_destroy
         (eprint (UnknownBucketPolicy bucket_policy)
            (Sys.hwloc_topology_load w)))
| ExitNoMemory nbuckets :
    count_buckets (topology e) bucket_policy = Some nbuckets ->
    (nbuckets <? 0) || calloc_null e = true ->
    exit_path e a bucket_policy nic_policy w (-1) None
      (Sys.hwloc_topology_destroy (Sys.hwloc_topology_load w))
| ExitEnumerationFailed nbuckets :
    count_buckets (topology e) bucket_policy = Some nbuckets ->
    (nbuckets <? 0) || calloc_null e = false ->
    fi_getinfo_ret e <> 0 ->
    exit_path e a bucket_policy nic_policy w (fi_getinfo_ret e) None
      (Sys.hwloc_topology_destroy
         (Sys.fi_freeinfo
            (eprint (FiGetinfoError (fi_getinfo_ret e))
               (Sys.fi_allocinfo (Sys.hwloc_topology_load w)))))
| ExitNotInTopology nbuckets name :
    count_buckets (topology e) bucket_policy = Some nbuckets ->
    (nbuckets <? 0) || calloc_null e = false ->
    fi_getinfo_ret e = 0 ->
    assign_buckets (topology e) nbuckets (fi_getinfo_info e)
      (replicate (Z.to_nat nbuckets) []) = NotInTopology name ->
    exit_path e a bucket_policy nic_policy w (-1) None
      (Sys.hwloc_topology_destroy
         (Sys.fi_freeinfo
            (eprint (CantFindInTopology name)
               (Sys.fi_freeinfo
                  (Sys.fi_getinfo_alloc
                     (Sys.fi_allocinfo (Sys.hwloc_topology_load w)))))))
| ExitEmptyBucket nbuckets buckets i :
    count_buckets (topology e) bucket_policy = Some nbuckets ->
    (nbuckets <? 0) || calloc_null e = false ->
    fi_getinfo_ret e = 0 ->
    assign_buckets (topology e) nbuckets (fi_getinfo_info e)
      (replicate (Z.to_nat nbuckets) []) = Assigned buckets ->
    first_empty_bucket 0 buckets = Some i ->
    exit_path e a bucket_policy nic_policy w (-1) None
      (Sys.hwloc_topology_destroy
         (eprint (BucketHasNoNics i) (after_enumeration w)))
| ExitSelectFailed nbuckets buckets ret selected_nic w' :
    count_buckets (topology e) bucket_policy = Some nbuckets ->
    (nbuckets <? 0) || calloc_null e = false ->
    fi_getinfo_ret e = 0 ->
    assign_buckets (topology e) nbuckets (fi_getinfo_info e)
      (replicate (Z.to_nat nbuckets) []) = Assigned buckets ->
    first_empty_bucket 0 buckets = None ->
    select_nic e bucket_policy nic_policy nbuckets buckets
      (after_enumeration w) = Returns (ret, selected_nic) w' ->
    ret < 0 ->
    exit_path e a bucket_policy nic_policy w (-1) None
      (Sys.hwloc_topology_destroy (eprint FailedToSelectNic w'))
| ExitResolved nbuckets buckets ret name w' :
    count_buckets (topology e) bucket_policy = Some nbuckets ->
    (nbuckets <? 0) || calloc_null e = false ->
    fi_getinfo_ret e = 0 ->
    assign_buckets (topology e) nbuckets (fi_getinfo_info e)
      (replicate (Z.to_nat nbuckets) []) = Assigned buckets ->
    first_empty_bucket 0 buckets = None ->
    select_nic e bucket_policy nic_policy nbuckets buckets
      (after_enumeration w) = Returns (ret, Some name) w' ->
    0 <= ret ->
    exit_path e a bucket_policy nic_policy w 0 (Some (a +:+ name))
      (Sys.hwloc_topology_destroy w').

(** ** Concrete nodes *)

Module Example.

(** A NIC with PCI bus data, at bus [bus] of PCI domain 0. *)
Definition pci_nic (name : string) (bus : Z) : fi_info :=
  {| nic := Some {| bus_attr := Some
       {| bus_type := FI_BUS_PCI;
          attr_pci := {| domain_id := 0; bus_id := bus;
                         device_id := 0; function_id := 0 |} |} |};
     domain_attr_name := name |}.

(** One NUMA node; the topology knows the PCI buses below 16. *)
Definition one_domain : hwloc_topology :=
  {| complete_nodeset_weight := 1;
     get_pcidev_by_busid :=
       fun pci => if bus_id pci <? 16 then Some (bus_id pci) else None;
     non_io_ancestor_first_node := fun _ => 0;
     last_cpu_first_node := Some 0 |}.

(** Two NUMA nodes, even buses on node 0 and odd buses on node 1; the
    calling thread last ran on node 1. *)
Definition two_domains : hwloc_topology :=
  {| complete_nodeset_weight := 2;
     get_pcidev_by_busid :=
       fun pci => if bus_id pci <? 16 then Some (bus_id pci) else None;
     non_io_ancestor_first_node := fun dev => dev mod 2;
     last_cpu_first_node := Some 1 |}.

(** A node where every call succeeds, but for the two failures asked. *)
Definition node (t : hwloc_topology) (infos : list fi_info)
    (flock_fails pread_fails : bool) : environment :=
  {| topology := t; fi_getinfo_ret := 0; fi_getinfo_info := infos;
     calloc_null := false; mkdir_error := false; open_error := false;
     flock_error := flock_fails; pread_error := pread_fails;
     pwrite_error := false; rand_value := 0 |}.

(** A freshly booted node: no scratch directory, nothing open. *)
Definition boot : world :=
  {| scratch_dir := false; counter_files := ∅; fd_table := ∅;
     held_locks := ∅; live_topologies := 0; live_fi_infos := 0;
     err_stream := [] |}.

Definition two_nics : list fi_info := [pci_nic "cxi0" 0; pci_nic "cxi1" 1].

(** A node on which the system calls asked for fail; [rand()] gives 7. *)
Definition faulty (infos : list fi_info)
    (mkdir_fails open_fails pread_fails pwrite_fails : bool)
  : environment :=
  {| topology := one_domain; fi_getinfo_ret := 0; fi_getinfo_info := infos;
     calloc_null := false; mkdir_error := mkdir_fails;
     open_error := open_fails; flock_error := false;
     pread_error := pread_fails; pwrite_error := pwrite_fails;
     rand_value := 7 |}.

(** Two NUMA nodes numbered 0 and 8. *)
Definition sparse_domains : hwloc_topology :=
  {| complete_nodeset_weight := 2;
     get_pcidev_by_busid :=
       fun pci => if bus_id pci <? 16 then Some (bus_id pci) else None;
     non_io_ancestor_first_node := fun dev => 8 * (dev mod 2);
     last_cpu_first_node := Some 0 |}.

(** Two NUMA nodes, on which the binding query fails. *)
Definition unbound_domains : hwloc_topology :=
  {| complete_nodeset_weight := 2;
     get_pcidev_by_busid :=
       fun pci => if bus_id pci <? 16 then Some (bus_id pci) else None;
     non_io_ancestor_first_node := fun dev => dev mod 2;
     last_cpu_first_node := None |}.

(** A node whose counter file for bucket 0 is one byte long. *)
Definition short_file : world :=
  {| scratch_dir := true; counter_files := {[ 0 := [Byte.x00] ]};
     fd_table := ∅; held_locks := ∅; live_topologies := 0;
     live_fi_infos := 0; err_stream := [] |}.

End Example.

(** * Properties *)

(** ** C integers and their bytes *)

Arguments CInt.to_bytes : simpl never.
Arguments CInt.of_bytes : simpl never.
Arguments CInt.wrap : simpl never.
Arguments CInt.rem : simpl never.

Lemma wrap_small z : CInt.INT_MIN <= z <= CInt.INT_MAX -> CInt.wrap z = z.
Proof.
  unfold CInt.wrap, CInt.INT_MIN, CInt.INT_MAX. intros Hz.
  rewrite Z.mod_small; lia.
Qed.

Lemma wrap_range z : CInt.INT_MIN <= CInt.wrap z <= CInt.INT_MAX.
Proof.
  unfold CInt.wrap, CInt.INT_MIN, CInt.INT_MAX.
  pose proof (Z.mod_pos_bound (z + 2 ^ 31) (2 ^ 32) ltac:(lia)). lia.
Qed.

Lemma wrap_mod z : CInt.wrap (z mod 2 ^ 32) = CInt.wrap z.
Proof.
  unfold CInt.wrap. f_equal.
  rewrite <- (Zplus_mod_idemp_l z). reflexivity.
Qed.

Lemma length_to_bytes z : length (CInt.to_bytes z) = 4%nat.
Proof. apply length_le_split. Qed.

Lemma of_to_bytes z :
  CInt.INT_MIN <= z <= CInt.INT_MAX -> CInt.of_bytes (CInt.to_bytes z) = z.
Proof.
  intros Hz. unfold CInt.of_bytes, CInt.to_bytes.
  rewrite le_combine_split.
  change (Z.of_nat 4 * 8) with 32.
  rewrite wrap_mod. by apply wrap_small.
Qed.

Lemma index_Some {A} (a : list A) i x :
  index a i = Some x <-> 0 <= i /\ a !! Z.to_nat i = Some x.
Proof.
  unfold index. destruct (Z.ltb_spec i 0); split.
  - discriminate.
  - lia.
  - auto with lia.
  - tauto.
Qed.

Lemma index_range {A} (a : list A) i x :
  index a i = Some x -> 0 <= i < Z.of_nat (length a).
Proof.
  intros [Hi Hl]%index_Some. apply lookup_lt_Some in Hl. lia.
Qed.

Lemma index_is_Some {A} (a : list A) i :
  0 <= i < Z.of_nat (length a) -> is_Some (index a i).
Proof.
  intros Hi. unfold index. destruct (Z.ltb_spec i 0); [lia|].
  apply lookup_lt_is_Some. lia.
Qed.

(** The remainder of C agrees with the mathematical one on a dividend
    that is not negative. *)
Lemma rem_mod a n : 0 <= a -> 0 < n -> CInt.rem a n = a mod n.
Proof. intros. unfold CInt.rem. apply Z.rem_mod_nonneg; lia. Qed.

(** ** The persistent counter *)

Lemma counter_value_absent w bucket_idx :
  counter_files w !! bucket_idx = None \/
  counter_files w !! bucket_idx = Some [] ->
  counter_value w bucket_idx = -1.
Proof.
  unfold counter_value. intros [-> | ->]; reflexivity.
Qed.

Lemma fresh_fd_nonneg w : (Sys.fresh_fd w <? 0) = false.
Proof. unfold Sys.fresh_fd. apply Z.ltb_ge. lia. Qed.

Lemma counter_value_after bucket_idx next w :
  CInt.INT_MIN <= next <= CInt.INT_MAX ->
  counter_value (after_roundrobin bucket_idx next w) bucket_idx = next.
Proof.
  intros Hn. unfold counter_value, after_roundrobin; cbn [counter_files].
  rewrite lookup_insert_eq; cbn [from_option id].
  rewrite take_app_length' by (symmetry; apply length_to_bytes).
  unfold overwrite. rewrite length_to_bytes.
  rewrite (drop_ge (CInt.to_bytes (-1))) by (rewrite length_to_bytes; lia).
  rewrite app_nil_r. by apply of_to_bytes.
Qed.

Lemma files_lookup_insert (f : gmap Z (list byte)) i x :
  <[i:=x]> f !! i = Some x.
Proof. apply lookup_insert_eq. Qed.

Lemma fds_lookup_insert (t : gmap Z Z) fd i : <[fd:=i]> t !! fd = Some i.
Proof. apply lookup_insert_eq. Qed.

Ltac world_simpl :=
  repeat (progress (
    cbn [fd_table set_fd_table set_counter_files set_scratch_dir
         set_held_locks set_live_topologies set_live_fi_infos
         counter_files held_locks eprint from_option id
         live_topologies live_fi_infos err_stream scratch_dir fst snd];
    rewrite ?fds_lookup_insert, ?files_lookup_insert, ?length_to_bytes)).

Lemma mkdir_not_failed e w :
  mkdir_error e = false ->
  exists m, Sys.mkdir e w = (m, set_scratch_dir true w)
            /\ m <> Sys.MkdirFailed.
Proof.
  intros Hmk. unfold Sys.mkdir. rewrite Hmk.
  destruct (scratch_dir w) eqn:Hd.
  - exists Sys.MkdirEEXIST. split; [|done]. f_equal.
    destruct w; simpl in *; by subst.
  - by exists Sys.MkdirCreated.
Qed.

Lemma roundrobin_mkdir_failed e bucket_idx b w :
  mkdir_error e = true ->
  select_nic_roundrobin e bucket_idx b w
  = Returns (-1, None) (eprint FailedToCreateDir (eprint (Perror "mkdir") w)).
Proof.
  intros Hmk. unfold select_nic_roundrobin, Sys.mkdir. by rewrite Hmk.
Qed.

Lemma roundrobin_mkdir_ok e bucket_idx b w :
  mkdir_error e = false ->
  select_nic_roundrobin e bucket_idx b w
  = roundrobin_on_file e bucket_idx b (set_scratch_dir true w).
Proof.
  intros Hmk. unfold select_nic_roundrobin.
  destruct (mkdir_not_failed e w Hmk) as (m & -> & Hm).
  by destruct m.
Qed.

(** The round-robin call when [mkdir], [open], [pread] and [pwrite] all
    answer without error, whatever [flock] answers. *)
Lemma roundrobin_step e bucket_idx b w :
  mkdir_error e = false -> open_error e = false ->
  pread_error e = false -> pwrite_error e = false ->
  num_nics b <> 0 ->
  select_nic_roundrobin e bucket_idx b w
  = match index b (next_index w bucket_idx b) with
    | Some name =>
        Returns (0, Some name)
          (after_roundrobin bucket_idx (next_index w bucket_idx b) w)
    | None => Crashes OutOfBounds
    end.
Proof.
  intros Hmk Hop Hrd Hwr HN.
  rewrite roundrobin_mkdir_ok by done. unfold roundrobin_on_file.
  cbv zeta. unfold next_index, counter_value.
  unfold Sys.open. rewrite Hop.
  change (Sys.fresh_fd (set_scratch_dir true w)) with (Sys.fresh_fd w).
  rewrite fresh_fd_nonneg.
  unfold Sys.flock_ex, Sys.pread, Sys.pwrite, Sys.flock_un, Sys.fd_file.
  rewrite fresh_fd_nonneg.
  unfold after_roundrobin.
  destruct (counter_files w !! bucket_idx) as [old|] eqn:Hf;
    destruct (flock_error e);
    repeat (progress (world_simpl; rewrite ?Hf, ?Hrd, ?Hwr)).
  all: destruct (Z.eqb_spec (num_nics b) 0) as [|_]; [done|].
  all: change (Z.of_nat 4 <? 0) with false; cbv iota.
  all: match goal with
       | |- context [Z.of_nat (length ?l) <? 0] =>
           destruct (Z.ltb_spec (Z.of_nat (length l)) 0); [lia|]
       end.
  all: repeat (progress (world_simpl; rewrite ?Hf, ?Hrd, ?Hwr)).
  all: rewrite ?insert_insert_eq.
  all: match goal with
       | |- context [index ?l ?i] => destruct (index l i)
       end; [|reflexivity].
  all: unfold set_held_locks, set_counter_files, set_fd_table,
         set_scratch_dir;
       cbn [fd_table counter_files held_locks live_topologies live_fi_infos
            err_stream scratch_dir].
  all: do 2 f_equal; try reflexivity; set_solver.
Qed.

(** Any of the four checked failures ends the call with -1, nothing stored
    through [out_nic], no lock left behind and the counter as it was. *)
Lemma roundrobin_error e bucket_idx b w :
  mkdir_error e = true \/ open_error e = true \/ pread_error e = true
  \/ (pwrite_error e = true /\ num_nics b <> 0) ->
  exists w',
    select_nic_roundrobin e bucket_idx b w = Returns (-1, None) w'
    /\ held_locks w' ⊆ held_locks w
    /\ live_topologies w' = live_topologies w
    /\ live_fi_infos w' = live_fi_infos w
    /\ counter_value w' bucket_idx = counter_value w bucket_idx.
Proof.
  intros Herr.
  destruct (mkdir_error e) eqn:Hmk.
  { rewrite roundrobin_mkdir_failed by done. eexists; split; [done|].
    by world_simpl. }
  rewrite roundrobin_mkdir_ok by done. unfold roundrobin_on_file.
  unfold Sys.open, Sys.flock_ex, Sys.pread, Sys.pwrite, Sys.flock_un,
    Sys.fd_file, counter_value.
  change (Sys.fresh_fd (set_scratch_dir true w)) with (Sys.fresh_fd w).
  destruct (open_error e) eqn:Hop.
  { change (-1 <? 0) with true. cbv iota. world_simpl.
    eexists; split; [done|]. by world_simpl. }
  rewrite !fresh_fd_nonneg.
  destruct (pread_error e) eqn:Hrd.
  { destruct (counter_files w !! bucket_idx) as [old|] eqn:Hf;
      destruct (flock_error e);
      repeat (progress (world_simpl; rewrite ?Hf; rewrite ?fresh_fd_nonneg)).
    all: change (-1 <? 0) with true; cbv iota.
    all: repeat (progress (world_simpl; rewrite ?Hf; rewrite ?fresh_fd_nonneg)).
    all: eexists; split; [done|]; world_simpl; rewrite ?Hf.
    all: split; [set_solver|done]. }
  destruct Herr as [?|[?|[?|[Hwr HN]]]]; try discriminate.
  destruct (counter_files w !! bucket_idx) as [old|] eqn:Hf;
    destruct (flock_error e);
    repeat (progress (world_simpl; rewrite ?Hf, ?Hwr; rewrite ?fresh_fd_nonneg)).
  all: destruct (Z.eqb_spec (num_nics b) 0) as [|_]; [done|].
  all: match goal with
       | |- context [Z.of_nat (length ?l) <? 0] =>
           destruct (Z.ltb_spec (Z.of_nat (length l)) 0); [lia|]
       end.
  all: change (-1 <? 0) with true; cbv iota.
  all: repeat (progress (world_simpl; rewrite ?Hf; rewrite ?fresh_fd_nonneg)).
  all: eexists; split; [done|]; world_simpl; rewrite ?Hf.
  all: split; [set_solver|done].
Qed.

Lemma next_index_mod w bucket_idx b :
  1 <= num_nics b ->
  -1 <= counter_value w bucket_idx < CInt.INT_MAX ->
  next_index w bucket_idx b
  = (counter_value w bucket_idx + 1) mod num_nics b.
Proof.
  intros HN Hc. unfold next_index.
  rewrite wrap_small by (unfold CInt.INT_MIN, CInt.INT_MAX in *; lia).
  apply rem_mod; lia.
Qed.

Lemma counter_value_range w bucket_idx :
  CInt.INT_MIN <= counter_value w bucket_idx <= CInt.INT_MAX.
Proof. apply wrap_range. Qed.

Lemma files_after_roundrobin bucket_idx next w :
  counter_files (after_roundrobin bucket_idx next w) !! bucket_idx
  = Some (CInt.to_bytes next
            ++ drop 4 (default [] (counter_files w !! bucket_idx))).
Proof. unfold after_roundrobin; cbn [counter_files]. apply lookup_insert_eq. Qed.

(** One rotation step, with the world it leaves. *)
Lemma roundrobin_next e bucket_idx b w :
  mkdir_error e = false -> open_error e = false ->
  pread_error e = false -> pwrite_error e = false ->
  1 <= num_nics b ->
  -1 <= counter_value w bucket_idx < CInt.INT_MAX ->
  let next := (counter_value w bucket_idx + 1) mod num_nics b in
  exists name,
    index b next = Some name
    /\ select_nic_roundrobin e bucket_idx b w
       = Returns (0, Some name) (after_roundrobin bucket_idx next w).
Proof.
  intros Hmk Hop Hrd Hwr HN Hc next.
  rewrite roundrobin_step by (done || lia).
  rewrite next_index_mod by done. fold next.
  destruct (index_is_Some b next) as [name Hname].
  { apply Z.mod_pos_bound. unfold num_nics in HN. lia. }
  exists name. by rewrite Hname.
Qed.

(** [select_nic] hands a bucket of two or more NICs to the policy named
    by [nic_policy]. *)
Lemma select_nic_roundrobin_dispatch e bucket_policy nbuckets buckets w
    bucket_idx b :
  select_bucket (topology e) bucket_policy nbuckets w
  = Returns (inr bucket_idx) w ->
  index buckets bucket_idx = Some b ->
  num_nics b <> 1 ->
  select_nic e bucket_policy "roundrobin" nbuckets buckets w
  = select_nic_roundrobin e bucket_idx b w.
Proof.
  intros Hsel Hb HN. unfold select_nic. rewrite Hsel. cbv beta iota.
  rewrite Hb. by destruct (Z.eqb_spec (num_nics b) 1).
Qed.

(** C1. Round-robin rotation.  Under the policy roundrobin [select_nic]
    hands a chosen bucket of [N >= 2] NICs to [select_nic_roundrobin].  A
    reader finds -1 in a counter file that is absent or empty.  When no
    system call fails and the file holds [current] (from -1 up), the call
    returns status 0 and the NIC at index [next = (current + 1) mod N],
    and the file then holds [next].  From an absent file on a bucket of
    three NICs, four calls in a row return the NICs at 0, 1, 2, 0 and
    leave 0, 1, 2, 0 in the file. *)
Theorem roundrobin_rotation :
  (forall e bucket_policy nbuckets buckets w bucket_idx b,
      select_bucket (topology e) bucket_policy nbuckets w
      = Returns (inr bucket_idx) w ->
      index buckets bucket_idx = Some b ->
      2 <= num_nics b ->
      select_nic e bucket_policy "roundrobin" nbuckets buckets w
      = select_nic_roundrobin e bucket_idx b w)
  /\ (forall w bucket_idx,
      counter_files w !! bucket_idx = None
      \/ counter_files w !! bucket_idx = Some [] ->
      counter_value w bucket_idx = -1)
  /\ (forall e bucket_idx b w,
        no_io_error e -> 2 <= num_nics b ->
        -1 <= counter_value w bucket_idx < CInt.INT_MAX ->
        let next := (counter_value w bucket_idx + 1) mod num_nics b in
        exists name w',
          select_nic_roundrobin e bucket_idx b w = Returns (0, Some name) w'
          /\ index b next = Some name
          /\ counter_value w' bucket_idx = next
          /\ take 4 <$> counter_files w' !! bucket_idx
             = Some (CInt.to_bytes next))
  /\ (forall e bucket_idx nic0 nic1 nic2 w0,
        no_io_error e -> counter_files w0 !! bucket_idx = None ->
        exists w1 w2 w3 w4,
          let b := [nic0; nic1; nic2] in
          select_nic_roundrobin e bucket_idx b w0 = Returns (0, Some nic0) w1
          /\ counter_files w1 !! bucket_idx = Some (CInt.to_bytes 0)
          /\ select_nic_roundrobin e bucket_idx b w1
             = Returns (0, Some nic1) w2
          /\ counter_files w2 !! bucket_idx = Some (CInt.to_bytes 1)
          /\ select_nic_roundrobin e bucket_idx b w2
             = Returns (0, Some nic2) w3
          /\ counter_files w3 !! bucket_idx = Some (CInt.to_bytes 2)
          /\ select_nic_roundrobin e bucket_idx b w3
             = Returns (0, Some nic0) w4
          /\ counter_files w4 !! bucket_idx = Some (CInt.to_bytes 0)).
Proof.
  split.
  { intros e bucket_policy nbuckets buckets w bucket_idx b Hsel Hb HN.
    apply select_nic_roundrobin_dispatch; try done. lia. }
  split; [exact counter_value_absent|]. split.
  - intros e bucket_idx b w (Hmk & Hop & _ & Hrd & Hwr) HN Hc next.
    destruct (roundrobin_next e bucket_idx b w) as (name & Hname & Hcall);
      try done; [lia|].
    fold next in Hname, Hcall.
    assert (0 <= next < num_nics b) by (apply Z.mod_pos_bound; lia).
    pose proof (index_range _ _ _ Hname) as Hr.
    exists name, (after_roundrobin bucket_idx next w).
    repeat split; try done.
    + apply counter_value_after.
      pose proof (counter_value_range w bucket_idx).
      unfold CInt.INT_MIN, CInt.INT_MAX in *.
      assert (next <= counter_value w bucket_idx + 1); [|lia].
      apply Z.mod_le; lia.
    + rewrite files_after_roundrobin. cbn [fmap option_fmap option_map].
      by rewrite take_app_length' by (by rewrite length_to_bytes).
  - intros e bucket_idx nic0 nic1 nic2 w0 (Hmk & Hop & _ & Hrd & Hwr) Hf.
    set (b := [nic0; nic1; nic2]).
    assert (Hstep : forall w k,
      counter_files w !! bucket_idx = Some (CInt.to_bytes k)
      \/ (counter_files w !! bucket_idx = None /\ k = -1) ->
      -1 <= k < 3 ->
      select_nic_roundrobin e bucket_idx b w
      = match index b ((k + 1) mod 3) with
        | Some name => Returns (0, Some name)
                         (after_roundrobin bucket_idx ((k + 1) mod 3) w)
        | None => Crashes OutOfBounds
        end
      /\ counter_files (after_roundrobin bucket_idx ((k + 1) mod 3) w)
           !! bucket_idx = Some (CInt.to_bytes ((k + 1) mod 3))).
    { intros w k Hw Hk.
      assert (Hcv : counter_value w bucket_idx = k).
      { destruct Hw as [Hw | [Hw ->]].
        - unfold counter_value. rewrite Hw. cbn [from_option id].
          rewrite take_ge by (rewrite length_to_bytes; lia).
          unfold overwrite. rewrite length_to_bytes.
          rewrite (drop_ge (CInt.to_bytes (-1)))
            by (rewrite length_to_bytes; lia).
          rewrite app_nil_r. apply of_to_bytes.
          unfold CInt.INT_MIN, CInt.INT_MAX. lia.
        - apply counter_value_absent. by left. }
      split.
      - rewrite roundrobin_step by done.
        rewrite next_index_mod, Hcv; [done|done|].
        rewrite Hcv. unfold CInt.INT_MAX. lia.
      - rewrite files_after_roundrobin. f_equal.
        rewrite drop_ge; [apply app_nil_r|].
        destruct Hw as [-> | [-> _]]; cbn [from_option id length];
          rewrite ?length_to_bytes; lia. }
    exists (after_roundrobin bucket_idx 0 w0).
    exists (after_roundrobin bucket_idx 1 (after_roundrobin bucket_idx 0 w0)).
    exists (after_roundrobin bucket_idx 2
              (after_roundrobin bucket_idx 1
                 (after_roundrobin bucket_idx 0 w0))).
    exists (after_roundrobin bucket_idx 0
              (after_roundrobin bucket_idx 2
                 (after_roundrobin bucket_idx 1
                    (after_roundrobin bucket_idx 0 w0)))).
    cbv zeta.
    destruct (Hstep w0 (-1)) as [H0 F0]; [by right | lia |].
    destruct (Hstep _ 0 (or_introl F0)) as [H1 F1]; [lia|].
    destruct (Hstep _ 1 (or_introl F1)) as [H2 F2]; [lia|].
    destruct (Hstep _ 2 (or_introl F2)) as [H3 F3]; [lia|].
    repeat split; assumption.
Qed.

(** With no NIC in the bucket the remainder of line 281 divides by zero,
    unless an earlier call failed. *)
Lemma roundrobin_empty_bucket e bucket_idx b w :
  mkdir_error e = false -> open_error e = false -> pread_error e = false ->
  num_nics b = 0 ->
  select_nic_roundrobin e bucket_idx b w = Crashes DivisionByZero.
Proof.
  intros Hmk Hop Hrd HN.
  rewrite roundrobin_mkdir_ok by done. unfold roundrobin_on_file.
  unfold Sys.open, Sys.flock_ex, Sys.pread, Sys.fd_file.
  rewrite Hop, HN.
  change (Sys.fresh_fd (set_scratch_dir true w)) with (Sys.fresh_fd w).
  rewrite !fresh_fd_nonneg.
  destruct (flock_error e);
    repeat (progress (world_simpl; rewrite ?Hrd; rewrite ?fresh_fd_nonneg)).
  all: match goal with
       | |- context [Z.of_nat (length ?l) <? 0] =>
           destruct (Z.ltb_spec (Z.of_nat (length l)) 0); [lia|]
       end.
  all: reflexivity.
Qed.

(** What a round-robin call that returns 0 went through. *)
Lemma roundrobin_success_inv e bucket_idx b w out w' :
  select_nic_roundrobin e bucket_idx b w = Returns (0, out) w' ->
  (mkdir_error e = false /\ open_error e = false
   /\ pread_error e = false /\ pwrite_error e = false)
  /\ num_nics b <> 0
  /\ out = index b (next_index w bucket_idx b)
  /\ is_Some out
  /\ w' = after_roundrobin bucket_idx (next_index w bucket_idx b) w.
Proof.
  intros Hcall.
  assert (Hflags : forall P : Prop,
    (P -> mkdir_error e = true \/ open_error e = true
          \/ pread_error e = true
          \/ pwrite_error e = true /\ num_nics b <> 0) -> ~ P).
  { intros P HP p.
    destruct (roundrobin_error e bucket_idx b w (HP p)) as (w'' & Hr & _).
    rewrite Hr in Hcall. discriminate. }
  destruct (mkdir_error e) eqn:Hmk; [by destruct (Hflags True); auto|].
  destruct (open_error e) eqn:Hop; [by destruct (Hflags True); auto|].
  destruct (pread_error e) eqn:Hrd; [by destruct (Hflags True); auto|].
  destruct (Z.eq_dec (num_nics b) 0) as [HN|HN].
  { rewrite roundrobin_empty_bucket in Hcall by done. discriminate. }
  destruct (pwrite_error e) eqn:Hwr; [by destruct (Hflags True); auto|].
  rewrite roundrobin_step in Hcall by done.
  destruct (index b (next_index w bucket_idx b)) as [name|] eqn:Hidx;
    [|discriminate].
  inversion Hcall; subst. by eauto 10.
Qed.

(** The index the code stores is an [int] whenever it is inside the
    bucket. *)
Lemma next_index_int w bucket_idx b :
  0 <= next_index w bucket_idx b ->
  CInt.INT_MIN <= next_index w bucket_idx b <= CInt.INT_MAX.
Proof.
  unfold next_index, CInt.rem.
  pose proof (wrap_range (counter_value w bucket_idx + 1)) as Hw.
  set (a := CInt.wrap _) in *. intros Hn.
  unfold CInt.INT_MIN, CInt.INT_MAX in *.
  destruct (Z.eq_dec (num_nics b) 0) as [->|HN].
  { rewrite Z.rem_0_r_ext by done. lia. }
  destruct (Z.le_gt_cases 0 a).
  - assert (Z.rem a (num_nics b) <= a); [|lia].
    apply Z.rem_le; unfold num_nics in *; lia.
  - pose proof (Z.rem_nonpos a (num_nics b) HN ltac:(lia)). lia.
Qed.

(** C10. The stored counter is a valid NIC index after every successful
    round-robin call: a call that returns 0 leaves in the file a value in
    [0, N) and returns the NIC at that index.  When the stored value is in
    [-1, N) before the call (the file may be absent or empty, which reads
    as -1) and no system call fails, the call does return 0. *)
Theorem roundrobin_counter_invariant :
  (forall e bucket_idx b w out w',
      -1 <= counter_value w bucket_idx < num_nics b ->
      select_nic_roundrobin e bucket_idx b w = Returns (0, out) w' ->
      0 <= counter_value w' bucket_idx < num_nics b
      /\ out = index b (counter_value w' bucket_idx)
      /\ is_Some out)
  /\ (forall e bucket_idx b w,
        no_io_error e ->
        1 <= num_nics b <= CInt.INT_MAX ->
        -1 <= counter_value w bucket_idx < num_nics b ->
        exists name w',
          select_nic_roundrobin e bucket_idx b w
          = Returns (0, Some name) w').
Proof.
  split.
  - intros e bucket_idx b w out w' _ Hcall.
    apply roundrobin_success_inv in Hcall
      as (_ & HN & -> & [name Hname] & ->).
    pose proof (index_range _ _ _ Hname) as Hr.
    rewrite counter_value_after by (apply next_index_int; lia).
    rewrite Hname. by eauto.
  - intros e bucket_idx b w (Hmk & Hop & _ & Hrd & Hwr) HN Hc.
    destruct (roundrobin_next e bucket_idx b w) as (name & _ & Hcall);
      try done; [lia..|].
    by eauto.
Qed.

(** Every way a round-robin call can return. *)
Lemma roundrobin_returns e bucket_idx b w ret out w' :
  select_nic_roundrobin e bucket_idx b w = Returns (ret, out) w' ->
  (ret = -1 /\ out = None
   /\ held_locks w' ⊆ held_locks w
   /\ live_topologies w' = live_topologies w
   /\ live_fi_infos w' = live_fi_infos w)
  \/ (ret = 0
      /\ w' = after_roundrobin bucket_idx (next_index w bucket_idx b) w).
Proof.
  intros Hcall.
  destruct (Z.eq_dec ret 0) as [->|Hret].
  { right. split; [done|].
    by apply roundrobin_success_inv in Hcall as (_ & _ & _ & _ & ->). }
  left.
  assert (Herr : mkdir_error e = true \/ open_error e = true
                 \/ pread_error e = true
                 \/ pwrite_error e = true /\ num_nics b <> 0).
  { destruct (mkdir_error e) eqn:Hmk; [by auto|].
    destruct (open_error e) eqn:Hop; [by auto|].
    destruct (pread_error e) eqn:Hrd; [by auto|].
    destruct (Z.eq_dec (num_nics b) 0) as [HN|HN].
    { rewrite roundrobin_empty_bucket in Hcall by done. discriminate. }
    destruct (pwrite_error e) eqn:Hwr; [by auto|].
    rewrite roundrobin_step in Hcall by done.
    destruct (index b _); [|discriminate].
    inversion Hcall; by subst. }
  destruct (roundrobin_error e bucket_idx b w Herr)
    as (w'' & Hr & Hl & Ht & Hi & _).
  rewrite Hr in Hcall. inversion Hcall; by subst.
Qed.

(** A round-robin call that returns 0 returns with the descriptor it
    opened on the counter file still in the table: the function has no
    [close]. *)
Lemma roundrobin_descriptor_open e bucket_idx b w out w' :
  select_nic_roundrobin e bucket_idx b w = Returns (0, out) w' ->
  fd_table w' !! Sys.fresh_fd w = Some bucket_idx.
Proof.
  intros Hcall.
  apply roundrobin_success_inv in Hcall as (_ & _ & _ & _ & ->).
  apply fds_lookup_insert.
Qed.

(** ** [select_nic] *)

Lemma select_bucket_returns t bucket_policy nbuckets w r w' :
  select_bucket t bucket_policy nbuckets w = Returns r w' ->
  (exists bucket_idx, r = inr bucket_idx /\ w' = w
     /\ (nbuckets = 1 /\ bucket_idx = 0
         \/ nbuckets <> 1 /\ bucket_policy = "numa"%string
            /\ last_cpu_first_node t = Some bucket_idx
            /\ bucket_idx < nbuckets))
  \/ (exists d, r = inl (-1) /\ w' = eprint d w).
Proof.
  unfold select_bucket.
  destruct (Z.eqb_spec nbuckets 1) as [->|Hnb].
  { intros [= <- <-]. left. exists 0. by auto. }
  destruct (String.eqb_spec bucket_policy "numa") as [->|Hbp].
  - destruct (last_cpu_first_node t) as [i|].
    + destruct (Z.ltb_spec i nbuckets); [|discriminate].
      intros [= <- <-]. left. exists i. by auto 10.
    + intros [= <- <-]. right. by eexists.
  - intros [= <- <-]. right. by eexists.
Qed.

(** C2. Single-NIC shortcut.  When the bucket chosen for the call holds
    exactly one NIC, [select_nic] returns that NIC with status 0 for every
    [nic_policy] string, and the world it returns is the one it was given:
    no counter file is created or written, no descriptor opened, no lock
    taken. *)
Theorem single_nic_shortcut e bucket_policy nic_policy nbuckets buckets w
    bucket_idx name :
  select_bucket (topology e) bucket_policy nbuckets w
  = Returns (inr bucket_idx) w ->
  index buckets bucket_idx = Some [name] ->
  select_nic e bucket_policy nic_policy nbuckets buckets w
  = Returns (0, Some name) w.
Proof.
  intros Hsel Hb. unfold select_nic. rewrite Hsel. cbv beta iota.
  by rewrite Hb.
Qed.

(** What [select_nic] leaves behind, whatever it returns: handles and
    locks as they were; a status that is not negative comes with a name
    and an error stream as it was. *)
Lemma select_nic_returns e bucket_policy nic_policy nbuckets buckets w
    ret out w' :
  select_nic e bucket_policy nic_policy nbuckets buckets w
  = Returns (ret, out) w' ->
  held_locks w' ⊆ held_locks w
  /\ live_topologies w' = live_topologies w
  /\ live_fi_infos w' = live_fi_infos w
  /\ (ret = -1 /\ out = None
      \/ ret = 0 /\ is_Some out /\ err_stream w' = err_stream w).
Proof.
  unfold select_nic.
  destruct (select_bucket _ _ _ _) as [[ret0|bucket_idx] w0|] eqn:Hsel;
    [| |discriminate];
    apply select_bucket_returns in Hsel
      as [(i & Hr & -> & _) | (d & Hr & ->)];
    try discriminate.
  - injection Hr as ->. intros [= <- <- <-]. cbn.
    split; [set_solver|]. by auto.
  - clear Hr.
    destruct (index buckets bucket_idx) as [b|]; [|discriminate].
    destruct (Z.eqb_spec (num_nics b) 1) as [HN|HN].
    { destruct (index b 0); [|discriminate].
      intros [= <- <- <-]. split; [set_solver|]. by eauto 10. }
    destruct (String.eqb_spec nic_policy "roundrobin") as [->|Hrr].
    { intros Hcall. pose proof Hcall as Hinv.
      apply roundrobin_returns in Hcall as [(-> & -> & ? & ? & ?)|[-> ->]].
      - by auto 10.
      - apply roundrobin_success_inv in Hinv as (_ & _ & -> & Hout & _).
        unfold after_roundrobin; cbn.
        split; [set_solver|]. by auto 10. }
    destruct (String.eqb_spec nic_policy "random") as [->|Hrand].
    { unfold select_nic_random.
      destruct (num_nics b =? 0); [discriminate|].
      destruct (index b _); [|discriminate].
      intros [= <- <- <-]. split; [set_solver|]. by eauto 10. }
    intros [= <- <- <-]. cbn. split; [set_solver|]. by auto.
Qed.

(** ** Which addresses are rewritten *)

Lemma prefix_app p s :
  String.prefix p s = true <-> exists rest, s = p +:+ rest.
Proof.
  revert s. induction p as [|c p IH]; intros s; simpl.
  - split; [intros _; by exists s|]. by destruct s.
  - destruct s as [|d s]; simpl.
    + split; [done|]. by intros [rest ?].
    + destruct (Ascii.ascii_dec c d) as [->|Hcd].
      * rewrite IH. split; intros [rest Hr]; exists rest.
        -- by rewrite Hr.
        -- by injection Hr.
      * split; [done|]. intros [rest Hr]. injection Hr as ? ?. congruence.
Qed.

Lemma get_last_two pre :
  let a := pre +:+ "//" in
  String.get (String.length a - 1) a = Some "/"%char
  /\ String.get (String.length a - 2) a = Some "/"%char.
Proof.
  induction pre as [|c pre IH]; [done|].
  cbv zeta in *.
  change (String c pre +:+ "//") with (String c (pre +:+ "//")).
  cbn [String.length].
  destruct IH as [IH1 IH2].
  assert (Hlen : (2 <= String.length (pre +:+ "//"))%nat).
  { clear. induction pre; simpl; lia. }
  destruct (String.length (pre +:+ "//")) as [|[|n]] eqn:Hn; [lia..|].
  cbn [Nat.sub String.get] in *. rewrite Nat.sub_0_r in *.
  split; [exact IH1|].
  destruct n; [|exact IH2]. exact IH2.
Qed.

Lemma last_two_get a :
  (2 <= String.length a)%nat ->
  String.get (String.length a - 1) a = Some "/"%char ->
  String.get (String.length a - 2) a = Some "/"%char ->
  exists pre, a = pre +:+ "//".
Proof.
  induction a as [|c a IH]; [simpl; lia|].
  cbn [String.length]. intros Hlen H1 H2.
  destruct (String.length a) as [|[|n]] eqn:Hn; [lia| |].
  - destruct a as [|d [|? ?]]; try discriminate.
    cbn in H1, H2. exists ""%string.
    injection H1 as ->. injection H2 as ->. reflexivity.
  - cbn [Nat.sub String.get] in H1, H2.
    destruct IH as [pre ->].
    + lia.
    + replace (S (S n) - 1)%nat with (S n) by lia. exact H1.
    + replace (S (S n) - 2)%nat with n by lia. exact H2.
    + by exists (String c pre).
Qed.

Lemma names_cxi_length a : names_cxi a -> (3 <= String.length a)%nat.
Proof. intros [[rest ->]|[rest ->]]; simpl; lia. Qed.

(** The two tests of lines 48-63 decide [eligible]. *)
Lemma eligible_checks a :
  eligible a <-> not_cxi a = false /\ already_specific a = false.
Proof.
  unfold eligible, not_cxi, already_specific, names_cxi, unresolved.
  rewrite <- !prefix_app.
  rewrite andb_false_iff, !negb_false_iff, orb_false_iff, !negb_false_iff.
  rewrite !bool_decide_eq_true.
  split.
  - intros [Hp [pre ->]]. split; [done|]. apply get_last_two.
  - intros [Hp [H1 H2]]. split; [done|].
    apply last_two_get; try done.
    enough (3 <= String.length a)%nat by lia.
    apply names_cxi_length. unfold names_cxi. by rewrite <- !prefix_app.
Qed.

Lemma not_eligible_checks a :
  ~ eligible a <-> not_cxi a = true \/ already_specific a = true.
Proof.
  rewrite eligible_checks.
  destruct (not_cxi a), (already_specific a); naive_solver.
Qed.

(** An address that is not eligible is handed back as it is. *)
Lemma resolve_not_eligible e a bucket_policy nic_policy w :
  ~ eligible a ->
  mochi_plumber_resolve_nic e a bucket_policy nic_policy w
  = Returns (0, Some a) w.
Proof.
  intros Hne. unfold mochi_plumber_resolve_nic.
  apply not_eligible_checks in Hne as [-> | Hs]; [done|].
  rewrite Hs. by destruct (not_cxi a).
Qed.

(** C6. Pass-through.  An address that does not both name the CXI
    transport (prefix cxi or ofi+cxi) and end with two slashes comes back
    unchanged with status 0, whatever the policies and the environment,
    and the world is untouched; a second call on the world the first one
    left gives the same answer, and so does a call on the answer. *)
Theorem pass_through e a bucket_policy nic_policy w :
  ~ eligible a ->
  mochi_plumber_resolve_nic e a bucket_policy nic_policy w
  = Returns (0, Some a) w
  /\ (forall r w1,
        mochi_plumber_resolve_nic e a bucket_policy nic_policy w
        = Returns r w1 ->
        mochi_plumber_resolve_nic e a bucket_policy nic_policy w1
        = Returns r w1)
  /\ (forall status a1 w1,
        mochi_plumber_resolve_nic e a bucket_policy nic_policy w
        = Returns (status, Some a1) w1 ->
        mochi_plumber_resolve_nic e a1 bucket_policy nic_policy w1
        = Returns (status, Some a1) w1).
Proof.
  intros Hne.
  pose proof (resolve_not_eligible e a bucket_policy nic_policy w Hne)
    as Hcall.
  split; [done|]. rewrite Hcall. split.
  - by intros r w1 [= <- <-].
  - by intros status a1 w1 [= <- <- <-].
Qed.

(** ** Building the buckets *)

Section Buckets.
Variable t : hwloc_topology.
Variable nbuckets : Z.

Lemma append_nic_Some (bs : list (list string)) i name :
  0 <= i < Z.of_nat (length bs) ->
  exists b, bs !! Z.to_nat i = Some b
    /\ append_nic bs i name = Some (<[Z.to_nat i := b ++ [name]]> bs).
Proof.
  intros Hi. unfold append_nic.
  destruct (index_is_Some bs i Hi) as [b Hb]. rewrite Hb.
  apply index_Some in Hb as [_ Hb]. by exists b.
Qed.

Lemma assigned_to_cons_skip i c infos :
  target t nbuckets c <> Some i ->
  assigned_to t nbuckets i (c :: infos) = assigned_to t nbuckets i infos.
Proof. intros H. unfold assigned_to. by rewrite filter_cons_False. Qed.

Lemma assigned_to_cons_take i c infos :
  target t nbuckets c = Some i ->
  assigned_to t nbuckets i (c :: infos)
  = domain_attr_name c :: assigned_to t nbuckets i infos.
Proof. intros H. unfold assigned_to. by rewrite filter_cons_True. Qed.

(** The loop, when every entry with PCI data is found in the topology and
    mapped inside the array: bucket [i] receives, in order, the names of
    the entries whose computed index is [i]. *)
Lemma assign_buckets_spec infos :
  forall bs : list (list string),
    (forall c, c ∈ infos -> is_Some (pci_of c) ->
       exists i, target t nbuckets c = Some i
                 /\ 0 <= i < Z.of_nat (length bs)) ->
    exists bs',
      assign_buckets t nbuckets infos bs = Assigned bs'
      /\ length bs' = length bs
      /\ forall i b, bs !! i = Some b ->
           bs' !! i = Some (b ++ assigned_to t nbuckets (Z.of_nat i) infos).
Proof.
  induction infos as [|c infos IH]; intros bs Hok.
  { exists bs. split; [done|]. split; [done|].
    intros i b Hb. by rewrite app_nil_r. }
  cbn [assign_buckets].
  assert (Hrest : forall bs1 : list (list string),
    length bs1 = length bs ->
    forall c', c' ∈ infos -> is_Some (pci_of c') ->
      exists i, target t nbuckets c' = Some i
                /\ 0 <= i < Z.of_nat (length bs1)).
  { intros bs1 -> c' Hc'. apply Hok. by apply elem_of_cons; right. }
  destruct (pci_of c) as [pci|] eqn:Hpci.
  - destruct (Hok c) as (i & Hi & Hr); [by apply elem_of_cons; left|done|].
    unfold target in Hi. rewrite Hpci in Hi.
    destruct (get_pcidev_by_busid t pci) as [dev|] eqn:Hdev; [|done].
    injection Hi as Hi. rewrite Hi.
    destruct (append_nic_Some bs i (domain_attr_name c) Hr)
      as (b0 & Hb0 & ->).
    destruct (IH (<[Z.to_nat i := b0 ++ [domain_attr_name c]]> bs))
      as (bs' & Hrun & Hlen & Hget).
    { apply Hrest. by rewrite length_insert. }
    exists bs'. split; [done|]. rewrite Hlen, length_insert.
    split; [done|]. intros j b Hb.
    assert (Htc : target t nbuckets c = Some i).
    { unfold target. by rewrite Hpci, Hdev, Hi. }
    destruct (decide (j = Z.to_nat i)) as [->|Hne].
    + rewrite (Hget (Z.to_nat i) (b0 ++ [domain_attr_name c])).
      * rewrite assigned_to_cons_take by (rewrite Z2Nat.id by lia; done).
        rewrite <- app_assoc. f_equal. f_equal. congruence.
      * apply list_lookup_insert_eq. by apply lookup_lt_Some in Hb0.
    + rewrite (Hget j b) by (by rewrite list_lookup_insert_ne).
      rewrite assigned_to_cons_skip; [done|].
      rewrite Htc. intros [= ->]. apply Hne. by rewrite Nat2Z.id.
  - destruct (IH bs) as (bs' & Hrun & Hlen & Hget); [by apply Hrest|].
    exists bs'. split; [done|]. split; [done|].
    intros i b Hb. rewrite (Hget i b Hb).
    rewrite assigned_to_cons_skip; [done|].
    unfold target. by rewrite Hpci.
Qed.

(** The loop stops at the first entry with PCI data that the topology
    does not know, whatever the number of buckets. *)
Lemma assign_buckets_not_found infos :
  forall bs : list (list string),
    (exists c pci, c ∈ infos /\ pci_of c = Some pci
                   /\ get_pcidev_by_busid t pci = None) ->
    (exists name, assign_buckets t nbuckets infos bs = NotInTopology name)
    \/ assign_buckets t nbuckets infos bs = AssignCrashes OutOfBounds.
Proof.
  induction infos as [|c0 infos IH]; intros bs (c & pci & Hin & Hpci & Hno).
  { by apply elem_of_nil in Hin. }
  cbn [assign_buckets].
  destruct (pci_of c0) as [pci0|] eqn:Hpci0.
  - destruct (get_pcidev_by_busid t pci0) as [dev|] eqn:Hdev.
    + destruct (append_nic _ _ _); [|by right].
      apply IH. exists c, pci. split; [|done].
      apply elem_of_cons in Hin as [->|Hin]; [congruence|done].
    + left. by eexists.
  - apply IH. exists c, pci. split; [|done].
    apply elem_of_cons in Hin as [->|Hin]; [congruence|done].
Qed.

End Buckets.

Lemma filter_ext_in {A} (P Q : A -> Prop) `{!forall x, Decision (P x)}
    `{!forall x, Decision (Q x)} (l : list A) :
  (forall x, x ∈ l -> P x <-> Q x) -> filter P l = filter Q l.
Proof.
  induction l as [|x l IH]; intros Hext; [done|].
  rewrite !filter_cons.
  rewrite IH by (intros y Hy; apply Hext; by apply elem_of_cons; right).
  pose proof (Hext x ltac:(by apply elem_of_cons; left)) as Hx.
  destruct (decide (P x)), (decide (Q x)); tauto.
Qed.

(** With one bucket the loop never leaves the array. *)
Lemma assign_buckets_one_not_found t infos :
  forall bs : list (list string),
    length bs = 1%nat ->
    (exists c pci, c ∈ infos /\ pci_of c = Some pci
                   /\ get_pcidev_by_busid t pci = None) ->
    exists name, assign_buckets t 1 infos bs = NotInTopology name.
Proof.
  induction infos as [|c0 infos IH];
    intros bs Hlen (c & pci & Hin & Hpci & Hno).
  { by apply elem_of_nil in Hin. }
  cbn [assign_buckets].
  assert (Hrest : exists c pci, c ∈ infos /\ pci_of c = Some pci
                   /\ get_pcidev_by_busid t pci = None
          \/ c = c0 /\ pci_of c = Some pci
             /\ get_pcidev_by_busid t pci = None).
  { exists c, pci. apply elem_of_cons in Hin as [->|Hin]; by auto. }
  clear c pci Hin Hpci Hno. destruct Hrest as (c & pci & Hrest).
  destruct (pci_of c0) as [pci0|] eqn:Hpci0.
  - destruct (get_pcidev_by_busid t pci0) as [dev|] eqn:Hdev;
      [|by eexists].
    change (1 =? 1) with true. cbv iota.
    destruct (append_nic_Some bs 0 (domain_attr_name c0)) as (b & _ & ->);
      [rewrite Hlen; lia|].
    apply IH; [by rewrite length_insert|].
    destruct Hrest as [?|(-> & ? & ?)]; [by eauto|congruence].
  - apply IH; [done|].
    destruct Hrest as [?|(-> & ? & ?)]; [by eauto|congruence].
Qed.

(** C5, as the code has it.  With every enumerated NIC that has PCI bus
    data known to the topology: under the policy all one bucket is built,
    holding, in enumeration order, every NIC with PCI bus data; under numa
    the number of buckets is the weight of the complete node set and, when
    every domain number is at least 0 and below that weight, bucket [i]
    holds exactly the NICs the topology maps to domain [i].  An entry
    without PCI bus data leaves the buckets as they are.  (What the loop
    does with a domain number outside that range is not part of this
    statement.) *)
Theorem bucket_completeness t infos :
  (forall c pci, c ∈ infos -> pci_of c = Some pci ->
     is_Some (get_pcidev_by_busid t pci)) ->
  (count_buckets t "all" = Some 1
   /\ assign_buckets t 1 infos (replicate (Z.to_nat 1) [])
      = Assigned [pci_nics infos])
  /\ (count_buckets t "numa" = Some (complete_nodeset_weight t)
      /\ (0 <= complete_nodeset_weight t ->
          (forall c d, c ∈ infos -> affinity_domain t c = Some d ->
             0 <= d < complete_nodeset_weight t) ->
          exists buckets,
            assign_buckets t (complete_nodeset_weight t) infos
              (replicate (Z.to_nat (complete_nodeset_weight t)) [])
            = Assigned buckets
            /\ Z.of_nat (length buckets) = complete_nodeset_weight t
            /\ forall i, 0 <= i < complete_nodeset_weight t ->
                 index buckets i = Some (nics_of_domain t i infos)))
  /\ (forall c rest nbuckets buckets,
        pci_of c = None ->
        assign_buckets t nbuckets (c :: rest) buckets
        = assign_buckets t nbuckets rest buckets).
Proof.
  intros Hfound. split; [|split].
  - split; [done|].
    destruct (assign_buckets_spec t 1 infos (replicate (Z.to_nat 1) []))
      as (bs' & Hrun & Hlen & Hget).
    { intros c Hc [pci Hpci]. exists 0. split; [|simpl; lia].
      unfold target. rewrite Hpci.
      by destruct (Hfound c pci Hc Hpci) as [dev ->]. }
    rewrite Hrun. f_equal.
    specialize (Hget 0%nat [] eq_refl).
    destruct bs' as [|b [|? ?]]; try discriminate.
    injection Hget as ->. f_equal. unfold assigned_to, pci_nics.
    f_equal. apply filter_ext_in. intros c Hc. unfold target.
    destruct (pci_of c) as [pci|] eqn:Hpci.
    + destruct (Hfound c pci Hc Hpci) as [dev ->]. by split; eauto.
    + split; [done|]. by intros [? ?].
  - split; [done|]. intros Hw Hrange.
    set (nb := complete_nodeset_weight t) in *.
    assert (Hsame : forall c i, c ∈ infos ->
              target t nb c = Some i <-> affinity_domain t c = Some i).
    { intros c i Hc. pose proof (Hrange c) as Hr.
      unfold target, affinity_domain in *.
      destruct (pci_of c) as [pci|]; [|done].
      destruct (get_pcidev_by_busid t pci) as [dev|]; [|done].
      cbn [fmap option_fmap option_map] in *.
      destruct (Z.eqb_spec nb 1) as [Hnb|_]; [|done].
      specialize (Hr _ Hc eq_refl).
      split; intros [= <-]; f_equal; lia. }
    destruct (assign_buckets_spec t nb infos (replicate (Z.to_nat nb) []))
      as (bs' & Hrun & Hlen & Hget).
    { intros c Hc [pci Hpci]. rewrite length_replicate, Z2Nat.id by done.
      destruct (Hfound c pci Hc Hpci) as [dev Hdev].
      assert (Haff : affinity_domain t c
                     = Some (non_io_ancestor_first_node t dev)).
      { unfold affinity_domain. by rewrite Hpci, Hdev. }
      exists (non_io_ancestor_first_node t dev). split.
      - by apply Hsame.
      - by apply (Hrange c). }
    rewrite length_replicate in Hlen.
    exists bs'. split; [done|]. split; [lia|].
    intros i Hi. apply index_Some. split; [lia|].
    rewrite (Hget (Z.to_nat i) []).
    + rewrite Z2Nat.id by lia. cbn [app]. f_equal.
      unfold assigned_to, nics_of_domain. f_equal.
      apply filter_ext_in. intros c Hc. by apply Hsame.
    + apply lookup_replicate_2. lia.
  - intros c rest nbuckets buckets Hpci. cbn [assign_buckets].
    by rewrite Hpci.
Qed.

(** ** The entry point on an eligible address *)

Lemma count_buckets_unknown t p :
  unknown_bucket_policy p <-> count_buckets t p = None.
Proof.
  unfold unknown_bucket_policy, count_buckets.
  destruct (String.eqb_spec p "all"), (String.eqb_spec p "numa");
    naive_solver.
Qed.

Ltac enter_resolve Hel :=
  unfold mochi_plumber_resolve_nic;
  rewrite (proj1 (proj1 (eligible_checks _) Hel)),
          (proj2 (proj1 (eligible_checks _) Hel)).

(** [select_nic] under a NIC policy it does not know: the only way to
    status 0 is a bucket of one NIC, and nothing persistent changes. *)
Lemma select_nic_unknown_policy e bucket_policy nic_policy nbuckets buckets
    w ret out w' :
  unknown_nic_policy nic_policy ->
  select_nic e bucket_policy nic_policy nbuckets buckets w
  = Returns (ret, out) w' ->
  persistent_state w' = persistent_state w
  /\ fd_table w' = fd_table w
  /\ (ret = -1 /\ out = None
      \/ ret = 0 /\ exists bucket_idx name,
           select_bucket (topology e) bucket_policy nbuckets w
           = Returns (inr bucket_idx) w
           /\ index buckets bucket_idx = Some [name] /\ out = Some name).
Proof.
  intros [Hrr Hrand]. unfold select_nic.
  destruct (select_bucket _ _ _ _) as [[ret0|bucket_idx] w0|] eqn:Hsel;
    [| |discriminate];
    pose proof Hsel as Hsel';
    apply select_bucket_returns in Hsel'
      as [(i & Hr & -> & _) | (d & Hr & ->)];
    try discriminate.
  - injection Hr as ->. intros [= <- <- <-]. by auto.
  - clear Hr.
    destruct (index buckets bucket_idx) as [b|] eqn:Hb; [|discriminate].
    destruct (Z.eqb_spec (num_nics b) 1) as [HN|HN].
    { destruct b as [|name [|? ?]];
        try (unfold num_nics in HN; cbn [length] in HN; lia).
      change (index [name] 0) with (Some name).
      intros [= <- <- <-]. split; [done|]. split; [done|].
      right. split; [done|]. by exists bucket_idx, name. }
    destruct (String.eqb_spec nic_policy "roundrobin"); [done|].
    destruct (String.eqb_spec nic_policy "random"); [done|].
    intros [= <- <- <-]. by auto.
Qed.

(** The entry point returns exactly along these paths. *)
Lemma resolve_exit_path e a bucket_policy nic_policy w ret out w' :
  eligible a ->
  mochi_plumber_resolve_nic e a bucket_policy nic_policy w
  = Returns (ret, out) w'
  <-> exit_path e a bucket_policy nic_policy w ret out w'.
Proof.
  intros Hel. enter_resolve Hel. cbv beta iota zeta. split.
  - destruct (count_buckets _ _) as [nbuckets|] eqn:Hnb.
    2:{ intros [= <- <- <-]. by constructor. }
    destruct ((nbuckets <? 0) || calloc_null e) eqn:Hmem.
    { intros [= <- <- <-]. by econstructor. }
    destruct (Z.eqb_spec (fi_getinfo_ret e) 0) as [Hfi|Hfi]; cbn [negb].
    2:{ intros [= <- <- <-]. by econstructor. }
    destruct (assign_buckets _ _ _ _) as [buckets|name|] eqn:Hassign;
      [| |discriminate].
    2:{ intros [= <- <- <-]. by econstructor. }
    destruct (first_empty_bucket 0 buckets) as [i|] eqn:Hempty.
    { intros [= <- <- <-]. by econstructor. }
    destruct (select_nic _ _ _ _ _ _) as [[sret sout] ws|] eqn:Hsel;
      [|discriminate].
    destruct (Z.ltb_spec sret 0).
    { intros [= <- <- <-]. by econstructor. }
    destruct sout as [name|]; [|discriminate].
    intros [= <- <- <-]. by econstructor.
  - intros Hpath.
    destruct Hpath as [Hnb | nb Hnb Hmem | nb Hnb Hmem Hfi
      | nb name Hnb Hmem Hfi Has | nb bs i Hnb Hmem Hfi Has Hem
      | nb bs sret sout ws Hnb Hmem Hfi Has Hem Hsel Hneg
      | nb bs sret name ws Hnb Hmem Hfi Has Hem Hsel Hpos];
      rewrite Hnb; try done; rewrite Hmem; try done.
    + by destruct (Z.eqb_spec (fi_getinfo_ret e) 0).
    + rewrite Hfi. cbn [Z.eqb negb]. by rewrite Has.
    + rewrite Hfi. cbn [Z.eqb negb]. by rewrite Has, Hem.
    + rewrite Hfi. cbn [Z.eqb negb]. rewrite Has, Hem.
      fold (after_enumeration w). rewrite Hsel.
      by destruct (Z.ltb_spec sret 0); [|lia].
    + rewrite Hfi. cbn [Z.eqb negb]. rewrite Has, Hem.
      fold (after_enumeration w). rewrite Hsel.
      by destruct (Z.ltb_spec sret 0); [lia|].
Qed.

Lemma first_empty_bucket_Some (buckets : list (list string)) :
  forall k i,
    first_empty_bucket k buckets = Some i ->
    k <= i
    /\ buckets !! Z.to_nat (i - k) = Some []
    /\ forall j b, (j < Z.to_nat (i - k))%nat -> buckets !! j = Some b ->
         b <> [].
Proof.
  induction buckets as [|b rest IH]; intros k i; [done|].
  cbn [first_empty_bucket].
  destruct (Z.ltb_spec (num_nics b) 1) as [Hb|Hb].
  - intros [= <-]. rewrite Z.sub_diag. split; [lia|].
    split; [|intros j ? Hj; simpl in Hj; lia].
    destruct b; [done|]. unfold num_nics in Hb. cbn [length] in Hb. lia.
  - intros Hi. apply IH in Hi as (Hk & Hget & Hbefore).
    split; [lia|].
    replace (Z.to_nat (i - k)) with (S (Z.to_nat (i - (k + 1)))) by lia.
    split; [done|].
    intros [|j] b' Hj Hb'.
    + injection Hb' as <-. intros ->. unfold num_nics in Hb.
      cbn [length] in Hb. lia.
    + apply (Hbefore j); [lia|done].
Qed.

Lemma first_empty_bucket_None (buckets : list (list string)) :
  forall k,
    first_empty_bucket k buckets = None <->
    forall j, buckets !! j <> Some [].
Proof.
  induction buckets as [|b rest IH]; intros k.
  { split; [|done]. intros _ j. by rewrite lookup_nil. }
  cbn [first_empty_bucket].
  destruct (Z.ltb_spec (num_nics b) 1) as [Hb|Hb].
  - split; [done|]. intros Hall. destruct (Hall 0%nat).
    destruct b; [done|]. unfold num_nics in Hb. cbn [length] in Hb. lia.
  - rewrite IH. split.
    + intros Hall [|j]; [|apply Hall].
      cbn. intros [= ->]. unfold num_nics in Hb. cbn [length] in Hb. lia.
    + intros Hall j. apply (Hall (S j)).
Qed.

(** C3, as the code has it.  On an eligible address an unrecognised
    bucket policy ends the call with status -1.  Under an unrecognised NIC
    policy (and an enumeration whose status is never positive) a call that
    returns has a negative status, except when the bucket chosen for the
    call holds exactly one NIC: that NIC is returned with status 0 and the
    policy string is never looked at; with any other bucket size the
    selection ends the call with status -1.  In none of these cases is the
    scratch directory or a counter file created or written, or a
    descriptor opened. *)
Theorem config_validation e a bucket_policy nic_policy w :
  eligible a ->
  (unknown_bucket_policy bucket_policy ->
   exists w',
     mochi_plumber_resolve_nic e a bucket_policy nic_policy w
     = Returns (-1, None) w'
     /\ persistent_state w' = persistent_state w
     /\ fd_table w' = fd_table w)
  /\ (unknown_nic_policy nic_policy -> fi_getinfo_ret e <= 0 ->
      forall ret out w',
        mochi_plumber_resolve_nic e a bucket_policy nic_policy w
        = Returns (ret, out) w' ->
        persistent_state w' = persistent_state w
        /\ fd_table w' = fd_table w
        /\ (ret < 0 /\ out = None
            \/ ret = 0 /\ exists nbuckets buckets bucket_idx name,
                 assign_buckets (topology e) nbuckets (fi_getinfo_info e)
                   (replicate (Z.to_nat nbuckets) []) = Assigned buckets
                 /\ select_bucket (topology e) bucket_policy nbuckets
                      (after_enumeration w)
                    = Returns (inr bucket_idx) (after_enumeration w)
                 /\ index buckets bucket_idx = Some [name]
                 /\ out = Some (a +:+ name)))
  /\ (unknown_nic_policy nic_policy ->
      forall nbuckets buckets bucket_idx b,
        count_buckets (topology e) bucket_policy = Some nbuckets ->
        (nbuckets <? 0) || calloc_null e = false ->
        fi_getinfo_ret e = 0 ->
        assign_buckets (topology e) nbuckets (fi_getinfo_info e)
          (replicate (Z.to_nat nbuckets) []) = Assigned buckets ->
        first_empty_bucket 0 buckets = None ->
        select_bucket (topology e) bucket_policy nbuckets
          (after_enumeration w)
        = Returns (inr bucket_idx) (after_enumeration w) ->
        index buckets bucket_idx = Some b ->
        num_nics b <> 1 ->
        exists w',
          mochi_plumber_resolve_nic e a bucket_policy nic_policy w
          = Returns (-1, None) w'
          /\ err_stream w'
             = err_stream w ++ [UnknownNicPolicy nic_policy;
                                FailedToSelectNic]
          /\ persistent_state w' = persistent_state w
          /\ fd_table w' = fd_table w).
Proof.
  intros Hel. split; [|split].
  - intros Hbp%(count_buckets_unknown (topology e)).
    eexists. split.
    + apply resolve_exit_path; [done|]. by apply ExitUnknownBucketPolicy.
    + done.
  - intros Hnp Hfi ret out w' Hcall.
    apply resolve_exit_path in Hcall; [|done].
    destruct Hcall as [Hnb | nb Hnb Hmem | nb Hnb Hmem Hfi'
      | nb name Hnb Hmem Hfi' Has | nb bs i Hnb Hmem Hfi' Has Hem
      | nb bs sret sout ws Hnb Hmem Hfi' Has Hem Hsel Hneg
      | nb bs sret name ws Hnb Hmem Hfi' Has Hem Hsel Hpos].
    1,2,4,5: split; [done|]; split; [done|]; left; split; [lia|done].
    + split; [done|]. split; [done|]. left. split; [lia|done].
    + apply select_nic_unknown_policy in Hsel as (Hps & Hfd & _); [|done].
      split; [exact Hps|]. split; [exact Hfd|]. left. split; [lia|done].
    + apply select_nic_unknown_policy in Hsel
        as (Hps & Hfd & [[-> _]|(-> & i & n & Hsb & Hb & [= ->])]);
        [lia| |done].
      split; [exact Hps|]. split; [exact Hfd|]. right. split; [done|].
      by exists nb, bs, i, n.
  - intros [Hrr Hrand] nb bs i b Hnb Hmem Hfi Has Hem Hsb Hb HN.
    eexists. split.
    + apply resolve_exit_path; [done|].
      eapply ExitSelectFailed with (ret := -1); try done.
      unfold select_nic. rewrite Hsb. cbv beta iota. rewrite Hb.
      destruct (Z.eqb_spec (num_nics b) 1); [done|].
      destruct (String.eqb_spec nic_policy "roundrobin"); [done|].
      by destruct (String.eqb_spec nic_policy "random").
    + cbn. by rewrite <- app_assoc.
Qed.

(** C4, as the code has it.  With an eligible address, a known bucket
    policy, and allocation, enumeration and every topology lookup
    successful, so that [buckets] are constructed: the call ends with
    status -1 and the diagnostic of the empty-bucket check if and only if
    some bucket has no NIC; the diagnostic names the lowest empty bucket;
    and when no bucket is empty a negative status can only come from the
    NIC selection.  (Outside these premises the call also fails on an
    unknown policy, a failed allocation or enumeration, or a NIC missing
    from the topology.) *)
Theorem empty_bucket_check e a bucket_policy nic_policy w nbuckets buckets :
  eligible a ->
  count_buckets (topology e) bucket_policy = Some nbuckets ->
  (nbuckets <? 0) || calloc_null e = false ->
  fi_getinfo_ret e = 0 ->
  assign_buckets (topology e) nbuckets (fi_getinfo_info e)
    (replicate (Z.to_nat nbuckets) []) = Assigned buckets ->
  ((exists i, index buckets i = Some []) <->
   (exists i w',
      mochi_plumber_resolve_nic e a bucket_policy nic_policy w
      = Returns (-1, None) w'
      /\ err_stream w' = err_stream w ++ [BucketHasNoNics i]))
  /\ (forall i w',
        mochi_plumber_resolve_nic e a bucket_policy nic_policy w
        = Returns (-1, None) w' ->
        err_stream w' = err_stream w ++ [BucketHasNoNics i] ->
        index buckets i = Some []
        /\ forall j b, 0 <= j < i -> index buckets j = Some b -> b <> [])
  /\ ((forall i, index buckets i <> Some []) ->
      forall ret out w',
        mochi_plumber_resolve_nic e a bucket_policy nic_policy w
        = Returns (ret, out) w' ->
        ret < 0 ->
        exists sret sout ws,
          select_nic e bucket_policy nic_policy nbuckets buckets
            (after_enumeration w) = Returns (sret, sout) ws
          /\ sret < 0).
Proof.
  intros Hel Hnb Hmem Hfi Has.
  assert (Hnamed : forall i w',
    mochi_plumber_resolve_nic e a bucket_policy nic_policy w
    = Returns (-1, None) w' ->
    err_stream w' = err_stream w ++ [BucketHasNoNics i] ->
    first_empty_bucket 0 buckets = Some i).
  { intros i w' Hcall Herr.
    apply resolve_exit_path in Hcall; [|done].
    inversion Hcall; simplify_eq; try congruence.
    - cbn in Herr. apply app_inv_head in Herr. injection Herr as <-.
      congruence.
    - cbn in Herr. by apply app_inj_tail in Herr as [_ ?]. }
  split; [|split].
  - split.
    + intros [i Hi].
      destruct (first_empty_bucket 0 buckets) as [i0|] eqn:Hem.
      * exists i0. eexists. split.
        -- apply resolve_exit_path; [done|]. by eapply ExitEmptyBucket.
        -- done.
      * apply index_Some in Hi as [_ Hi].
        by destruct (proj1 (first_empty_bucket_None buckets 0) Hem
                       (Z.to_nat i)).
    + intros (i & w' & Hcall & Herr).
      apply (Hnamed i w' Hcall) in Herr.
      apply first_empty_bucket_Some in Herr as (Hi & Hget & _).
      rewrite Z.sub_0_r in Hget. exists i. apply index_Some. by split.
  - intros i w' Hcall Herr.
    apply (Hnamed i w' Hcall) in Herr.
    apply first_empty_bucket_Some in Herr as (Hi & Hget & Hbefore).
    rewrite Z.sub_0_r in Hget, Hbefore. split.
    + apply index_Some. by split.
    + intros j b Hj [_ Hb]%index_Some. apply (Hbefore (Z.to_nat j)); [lia|done].
  - intros Hfull ret out w' Hcall Hneg.
    apply resolve_exit_path in Hcall; [|done].
    inversion Hcall; simplify_eq; try lia; try congruence.
    + match goal with
      | H : assign_buckets _ _ _ _ = Assigned ?bs |- _ =>
          assert (bs = buckets) as -> by congruence
      end.
      match goal with
      | H : first_empty_bucket 0 _ = Some ?i |- _ =>
          apply first_empty_bucket_Some in H as (Hi & Hget & _);
          rewrite Z.sub_0_r in Hget; destruct (Hfull i);
          apply index_Some; by split
      end.
    + match goal with
      | H : assign_buckets _ _ _ _ = Assigned ?bs |- _ =>
          assert (bs = buckets) as -> by congruence
      end.
      by eauto.
Qed.

(** C9. Under the policy all, on an eligible address with a successful
    enumeration, one enumerated NIC with PCI bus data that the topology
    does not know ends the call with status -1, wherever it stands in the
    list; nothing persistent is touched, and unless the allocation of the
    bucket array failed first the diagnostic is the one of the lookup. *)
Theorem all_policy_topology_check e a nic_policy w :
  eligible a ->
  fi_getinfo_ret e = 0 ->
  (exists c pci, c ∈ fi_getinfo_info e /\ pci_of c = Some pci
                 /\ get_pcidev_by_busid (topology e) pci = None) ->
  exists w',
    mochi_plumber_resolve_nic e a "all" nic_policy w = Returns (-1, None) w'
    /\ persistent_state w' = persistent_state w
    /\ (calloc_null e = false ->
        exists name, err_stream w' = err_stream w ++ [CantFindInTopology name]).
Proof.
  intros Hel Hfi Hmissing.
  destruct (calloc_null e) eqn:Hmem.
  - eexists. split.
    + apply resolve_exit_path; [done|].
      by apply (ExitNoMemory e a "all" nic_policy w 1).
    + done.
  - destruct (assign_buckets_one_not_found (topology e) (fi_getinfo_info e)
                (replicate (Z.to_nat 1) []) eq_refl Hmissing) as [name Has].
    eexists. split.
    + apply resolve_exit_path; [done|].
      by apply (ExitNotInTopology e a "all" nic_policy w 1 name).
    + split; [done|]. intros _. by exists name.
Qed.

(** On every return of the entry point the topology handle is destroyed,
    the hints and the enumeration results are freed, and no lock is held
    that was not held before the call. *)
Lemma resolve_releases e a bucket_policy nic_policy w ret out w' :
  mochi_plumber_resolve_nic e a bucket_policy nic_policy w
  = Returns (ret, out) w' ->
  live_topologies w' = live_topologies w
  /\ live_fi_infos w' = live_fi_infos w
  /\ held_locks w' ⊆ held_locks w.
Proof.
  assert (eligible a \/ ~ eligible a) as [Hel|Hne].
  { destruct (not_cxi a) eqn:H1;
      [right; apply not_eligible_checks; by left|].
    destruct (already_specific a) eqn:H2;
      [right; apply not_eligible_checks; by right|].
    left. by apply eligible_checks. }
  - intros Hcall. apply resolve_exit_path in Hcall; [|done].
    destruct Hcall as [Hnb | nb Hnb Hmem | nb Hnb Hmem Hfi'
      | nb name Hnb Hmem Hfi' Has | nb bs i Hnb Hmem Hfi' Has Hem
      | nb bs sret sout ws Hnb Hmem Hfi' Has Hem Hsel Hneg
      | nb bs sret name ws Hnb Hmem Hfi' Has Hem Hsel Hpos].
    1-5: by cbn.
    all: apply select_nic_returns in Hsel as (Hl & Ht & Hi & _).
    all: cbn in *; rewrite Ht, Hi; by auto.
  - rewrite resolve_not_eligible by done. by intros [= <- <- <-].
Qed.

Lemma eligible_cxi : eligible "cxi://".
Proof.
  split; [left; by exists "://"%string | by exists "cxi:"%string].
Qed.

(** ** Instances *)

Lemma roundrobin_rotation_witness :
  exists w1 w2 w3 w4,
    let e := Example.node Example.one_domain [] false false in
    let b := ["nic0"; "nic1"; "nic2"]%string in
    select_nic_roundrobin e 0 b Example.boot = Returns (0, Some "nic0"%string) w1
    /\ counter_files w1 !! 0 = Some (CInt.to_bytes 0)
    /\ select_nic_roundrobin e 0 b w1 = Returns (0, Some "nic1"%string) w2
    /\ counter_files w2 !! 0 = Some (CInt.to_bytes 1)
    /\ select_nic_roundrobin e 0 b w2 = Returns (0, Some "nic2"%string) w3
    /\ counter_files w3 !! 0 = Some (CInt.to_bytes 2)
    /\ select_nic_roundrobin e 0 b w3 = Returns (0, Some "nic0"%string) w4
    /\ counter_files w4 !! 0 = Some (CInt.to_bytes 0).
Proof.
  apply (proj2 (proj2 (proj2 roundrobin_rotation))).
  - repeat split; reflexivity.
  - reflexivity.
Defined.

Lemma single_nic_shortcut_witness :
  select_nic (Example.node Example.one_domain [] false false)
    "all" "no such policy" 1 [["cxi0"%string]] Example.boot
  = Returns (0, Some "cxi0"%string) Example.boot.
Proof.
  apply (single_nic_shortcut _ "all" "no such policy" 1 _ _ 0);
    reflexivity.
Defined.

(** The claim C3 fails here: an eligible address, a NIC policy that is
    neither roundrobin nor random, one NIC on the node, and the call
    returns status 0 with the address resolved. *)
Lemma unknown_nic_policy_accepted :
  eligible "cxi://"
  /\ unknown_nic_policy "fastest"
  /\ mochi_plumber_resolve_nic
       (Example.node Example.one_domain [Example.pci_nic "cxi0" 0]
          false false)
       "cxi://" "all" "fastest" Example.boot
     = Returns (0, Some "cxi://cxi0"%string) Example.boot.
Proof.
  split; [exact eligible_cxi|]. split; [by split|].
  vm_compute. reflexivity.
Qed.

Lemma config_validation_witness :
  (exists w',
     mochi_plumber_resolve_nic
       (Example.node Example.one_domain Example.two_nics false false)
       "cxi://" "socket" "roundrobin" Example.boot
     = Returns (-1, None) w'
     /\ persistent_state w' = persistent_state Example.boot
     /\ fd_table w' = fd_table Example.boot)
  /\ (exists w',
        mochi_plumber_resolve_nic
          (Example.node Example.one_domain Example.two_nics false false)
          "cxi://" "all" "fastest" Example.boot
        = Returns (-1, None) w'
        /\ err_stream w'
           = err_stream Example.boot
             ++ [UnknownNicPolicy "fastest"; FailedToSelectNic]
        /\ persistent_state w' = persistent_state Example.boot
        /\ fd_table w' = fd_table Example.boot).
Proof.
  split.
  - apply (proj1 (config_validation _ "cxi://" "socket" "roundrobin" _
                    eligible_cxi)).
    split; discriminate.
  - apply (proj2 (proj2 (config_validation _ "cxi://" "all" "fastest" _
                           eligible_cxi)))
      with (nbuckets := 1) (buckets := [["cxi0"; "cxi1"]%string])
           (bucket_idx := 0) (b := ["cxi0"; "cxi1"]%string);
      try reflexivity.
    + split; discriminate.
    + vm_compute. discriminate.
Defined.

(** The claim C4 fails here: an eligible address, both policies valid,
    the one bucket built with two NICs in it, and the call returns -1
    because the counter file cannot be read. *)
Lemma failure_without_empty_bucket :
  let e := Example.node Example.one_domain Example.two_nics false true in
  eligible "cxi://"
  /\ count_buckets (topology e) "all" = Some 1
  /\ assign_buckets (topology e) 1 (fi_getinfo_info e)
       (replicate (Z.to_nat 1) [])
     = Assigned [["cxi0"; "cxi1"]%string]
  /\ first_empty_bucket 0 [["cxi0"; "cxi1"]%string] = None
  /\ exists w',
       mochi_plumber_resolve_nic e "cxi://" "all" "roundrobin" Example.boot
       = Returns (-1, None) w'.
Proof.
  cbv zeta. split; [exact eligible_cxi|].
  repeat (split; [reflexivity|]).
  eexists. vm_compute. reflexivity.
Qed.

Lemma empty_bucket_check_witness :
  let e := Example.node Example.two_domains [Example.pci_nic "cxi0" 0]
             false false in
  let buckets := [["cxi0"%string]; []] in
  ((exists i, index buckets i = Some []) <->
   (exists i w',
      mochi_plumber_resolve_nic e "cxi://" "numa" "roundrobin" Example.boot
      = Returns (-1, None) w'
      /\ err_stream w' = err_stream Example.boot ++ [BucketHasNoNics i]))
  /\ (forall i w',
        mochi_plumber_resolve_nic e "cxi://" "numa" "roundrobin" Example.boot
        = Returns (-1, None) w' ->
        err_stream w' = err_stream Example.boot ++ [BucketHasNoNics i] ->
        index buckets i = Some []
        /\ forall j b, 0 <= j < i -> index buckets j = Some b -> b <> [])
  /\ ((forall i, index buckets i <> Some []) ->
      forall ret out w',
        mochi_plumber_resolve_nic e "cxi://" "numa" "roundrobin" Example.boot
        = Returns (ret, out) w' ->
        ret < 0 ->
        exists sret sout ws,
          select_nic e "numa" "roundrobin" 2 buckets
            (after_enumeration Example.boot) = Returns (sret, sout) ws
          /\ sret < 0).
Proof.
  cbv zeta.
  apply (empty_bucket_check _ "cxi://" "numa" "roundrobin" _ 2
           [["cxi0"%string]; []] eligible_cxi);
    reflexivity.
Defined.

(** The claim C5 fails here.  Two NUMA nodes numbered 0 and 8, two NICs
    with PCI bus data, both known to the topology, the second mapped to
    domain 8: the policy numa counts two buckets and the loop stores at
    [buckets[8]], outside the array, so no bucket set is built in which
    the NIC sits in the bucket of its domain.  And under the policy all a
    NIC with PCI bus data that the topology does not know ends the loop:
    no bucket is built that holds every such NIC. *)
Lemma sparse_domains_not_bucketed :
  (pci_of (Example.pci_nic "cxi1" 1)
   = Some {| domain_id := 0; bus_id := 1; device_id := 0;
             function_id := 0 |}
   /\ Example.pci_nic "cxi1" 1 ∈ Example.two_nics
   /\ affinity_domain Example.sparse_domains (Example.pci_nic "cxi1" 1)
      = Some 8
   /\ count_buckets Example.sparse_domains "numa" = Some 2
   /\ assign_buckets Example.sparse_domains 2 Example.two_nics
        (replicate (Z.to_nat 2) [])
      = AssignCrashes OutOfBounds
   /\ forall buckets,
        assign_buckets Example.sparse_domains 2 Example.two_nics
          (replicate (Z.to_nat 2) [])
        <> Assigned buckets)
  /\ (pci_of (Example.pci_nic "cxi9" 99)
      = Some {| domain_id := 0; bus_id := 99; device_id := 0;
                function_id := 0 |}
      /\ count_buckets Example.one_domain "all" = Some 1
      /\ assign_buckets Example.one_domain 1
           [Example.pci_nic "cxi0" 0; Example.pci_nic "cxi9" 99]
           (replicate (Z.to_nat 1) [])
         = NotInTopology "cxi9").
Proof.
  split.
  - repeat (split; [reflexivity || (apply elem_of_cons; right;
                                     apply elem_of_cons; by left)|]).
    intros buckets. vm_compute. discriminate.
  - repeat split; reflexivity.
Qed.

Lemma bucket_completeness_witness :
  let t := Example.two_domains in
  let infos :=
    [Example.pci_nic "cxi0" 0; Example.pci_nic "cxi1" 1;
     {| nic := None; domain_attr_name := "lo" |};
     Example.pci_nic "cxi2" 2] in
  assign_buckets t 1 infos (replicate (Z.to_nat 1) [])
  = Assigned [["cxi0"; "cxi1"; "cxi2"]%string]
  /\ exists buckets,
       assign_buckets t 2 infos (replicate (Z.to_nat 2) []) = Assigned buckets
       /\ Z.of_nat (length buckets) = 2
       /\ forall i, 0 <= i < 2 ->
            index buckets i = Some (nics_of_domain t i infos).
Proof.
  cbv zeta.
  assert (Hfound : forall c pci,
    c ∈ [Example.pci_nic "cxi0" 0; Example.pci_nic "cxi1" 1;
         {| nic := None; domain_attr_name := "lo" |};
         Example.pci_nic "cxi2" 2] ->
    pci_of c = Some pci ->
    is_Some (get_pcidev_by_busid Example.two_domains pci)).
  { intros c pci Hc Hpci.
    repeat (apply elem_of_cons in Hc as [->|Hc];
            [cbv in Hpci;
             first [discriminate
                   | injection Hpci as <-; eexists; reflexivity]|]).
    by apply elem_of_nil in Hc. }
  destruct (bucket_completeness Example.two_domains _ Hfound)
    as [[_ Hall] [[_ Hnuma] _]].
  split; [exact Hall|].
  apply Hnuma; [simpl; lia|].
  intros c d Hc Hd.
  repeat (apply elem_of_cons in Hc as [->|Hc];
          [vm_compute in Hd;
           first [discriminate
                 | injection Hd as <-;
                   change (complete_nodeset_weight Example.two_domains)
                     with 2; lia]|]).
  by apply elem_of_nil in Hc.
Defined.

Lemma pass_through_witness :
  mochi_plumber_resolve_nic
    (Example.node Example.one_domain Example.two_nics false false)
    "tcp://" "all" "roundrobin" Example.boot
  = Returns (0, Some "tcp://"%string) Example.boot.
Proof.
  apply (pass_through _ "tcp://").
  apply not_eligible_checks. left. reflexivity.
Defined.

(** C7 at a failing input.  [flock(fd, LOCK_EX)] fails, every other call
    succeeds: the round-robin call returns status 0 and a NIC, and the
    counter file is rewritten without the lock. *)
Theorem flock_failure_unreported :
  let e := Example.node Example.one_domain Example.two_nics true false in
  flock_error e = true
  /\ select_nic_roundrobin e 0 ["cxi0"; "cxi1"]%string Example.boot
     = Returns (0, Some "cxi0"%string) (after_roundrobin 0 0 Example.boot).
Proof. cbv zeta. split; [reflexivity|]. vm_compute. reflexivity. Qed.

(** C8 at a failing input.  A successful round-robin resolution on a node
    with nothing open: the topology is destroyed, the enumeration results
    are freed and the lock is released, but the descriptor opened on the
    counter file is still in the descriptor table when the call returns. *)
Theorem descriptor_left_open :
  exists w',
    mochi_plumber_resolve_nic
      (Example.node Example.one_domain Example.two_nics false false)
      "cxi://" "all" "roundrobin" Example.boot
    = Returns (0, Some "cxi://cxi0"%string) w'
    /\ fd_table Example.boot = ∅
    /\ fd_table w' = {[ 3 := 0 ]}
    /\ held_locks w' = ∅
    /\ live_topologies w' = 0%nat
    /\ live_fi_infos w' = 0%nat.
Proof.
  eexists. split; [vm_compute; reflexivity|].
  repeat split; vm_compute; reflexivity.
Qed.

Lemma all_policy_topology_check_witness :
  exists w',
    mochi_plumber_resolve_nic
      (Example.node Example.one_domain
         [Example.pci_nic "cxi0" 0; Example.pci_nic "cxi9" 99] false false)
      "cxi://" "all" "roundrobin" Example.boot
    = Returns (-1, None) w'
    /\ persistent_state w' = persistent_state Example.boot
    /\ (false = false ->
        exists name,
          err_stream w'
          = err_stream Example.boot ++ [CantFindInTopology name]).
Proof.
  apply (all_policy_topology_check
           (Example.node Example.one_domain
              [Example.pci_nic "cxi0" 0; Example.pci_nic "cxi9" 99]
              false false) "cxi://" "roundrobin" Example.boot eligible_cxi).
  - reflexivity.
  - exists (Example.pci_nic "cxi9" 99).
    eexists. split; [|split; reflexivity].
    apply elem_of_cons. right. apply elem_of_cons. by left.
Defined.

Lemma roundrobin_counter_invariant_witness :
  exists name w',
    select_nic_roundrobin
      (Example.node Example.one_domain [] false false) 0
      ["cxi0"; "cxi1"]%string Example.boot
    = Returns (0, Some name) w'.
Proof.
  apply (proj2 roundrobin_counter_invariant).
  - repeat split; reflexivity.
  - vm_compute. split; discriminate.
  - vm_compute. split; [discriminate|reflexivity].
Defined.

(** * Further properties of the selection engine *)

(** ** Round-robin: the failure exits *)

Lemma roundrobin_open_failed e bucket_idx b w :
  mkdir_error e = false -> open_error e = true ->
  select_nic_roundrobin e bucket_idx b w
  = Returns (-1, None)
      (eprint (FailedToRead bucket_idx)
         (eprint (Perror "pread")
            (eprint (FailedToOpen bucket_idx)
               (eprint (Perror "open") (set_scratch_dir true w))))).
Proof.
  intros Hmk Hop. rewrite roundrobin_mkdir_ok by done.
  unfold roundrobin_on_file, Sys.open. rewrite Hop.
  reflexivity.
Qed.

(** A failing [pread] or [pwrite]: what the world is like afterwards. *)
Lemma roundrobin_rw_failed e bucket_idx b w :
  mkdir_error e = false -> open_error e = false ->
  pread_error e = true \/ (pwrite_error e = true /\ num_nics b <> 0) ->
  exists w',
    select_nic_roundrobin e bucket_idx b w = Returns (-1, None) w'
    /\ scratch_dir w' = true
    /\ (forall j, j <> bucket_idx ->
          counter_files w' !! j = counter_files w !! j)
    /\ default [] (counter_files w' !! bucket_idx)
       = default [] (counter_files w !! bucket_idx)
    /\ fd_table w' = <[Sys.fresh_fd w := bucket_idx]> (fd_table w)
    /\ held_locks w' = held_locks w ∖ {[bucket_idx]}
    /\ err_stream w'
       = err_stream w
         ++ (if pread_error e
             then [Perror "pread"; FailedToRead bucket_idx]
             else [Perror "pwrite"; FailedToWrite bucket_idx]).
Proof.
  intros Hmk Hop Herr.
  rewrite roundrobin_mkdir_ok by done. unfold roundrobin_on_file.
  unfold Sys.open, Sys.flock_ex, Sys.pread, Sys.pwrite, Sys.flock_un,
    Sys.fd_file.
  change (Sys.fresh_fd (set_scratch_dir true w)) with (Sys.fresh_fd w).
  rewrite Hop, !fresh_fd_nonneg.
  assert (Hother : forall (x : list byte) j, j <> bucket_idx ->
            <[bucket_idx:=x]> (counter_files w) !! j = counter_files w !! j).
  { intros x j Hj. by apply lookup_insert_ne. }
  destruct (pread_error e) eqn:Hrd.
  { destruct (counter_files w !! bucket_idx) as [old|] eqn:Hf;
      destruct (flock_error e);
      repeat (progress (world_simpl; rewrite ?Hf; rewrite ?fresh_fd_nonneg)).
    all: change (-1 <? 0) with true; cbv iota.
    all: repeat (progress (world_simpl; rewrite ?Hf; rewrite ?fresh_fd_nonneg)).
    all: eexists; split; [done|]; world_simpl; rewrite ?Hf.
    all: rewrite <- ?app_assoc.
    all: repeat split; try done; try (by intros; apply Hother); set_solver. }
  destruct Herr as [?|[Hwr HN]]; [done|].
  destruct (counter_files w !! bucket_idx) as [old|] eqn:Hf;
    destruct (flock_error e);
    repeat (progress (world_simpl; rewrite ?Hf, ?Hwr; rewrite ?fresh_fd_nonneg)).
  all: destruct (Z.eqb_spec (num_nics b) 0) as [|_]; [done|].
  all: match goal with
       | |- context [Z.of_nat (length ?l) <? 0] =>
           destruct (Z.ltb_spec (Z.of_nat (length l)) 0); [lia|]
       end.
  all: change (-1 <? 0) with true; cbv iota.
  all: repeat (progress (world_simpl; rewrite ?Hf; rewrite ?fresh_fd_nonneg)).
  all: eexists; split; [done|]; world_simpl; rewrite ?Hf.
  all: rewrite <- ?app_assoc.
  all: repeat split; try done; try (by intros; apply Hother); set_solver.
Qed.

(** X1. The four checked failures of a round-robin call.  Each ends the
    call with status -1 and nothing stored through [out_nic], and leaves
    the stored counter as it was.  A failed [mkdir] (other than EEXIST)
    touches nothing; a failed [open] is reported but not returned on, so
    the call goes on to [pread], which fails on the bad descriptor, and
    two pairs of diagnostics are printed; a failed [pread] or [pwrite]
    releases the lock before returning.  A scratch directory that exists
    already is no failure: the call does what it does on a new one. *)
Theorem roundrobin_checked_failures e bucket_idx b w :
  (mkdir_error e = true ->
   exists w',
     select_nic_roundrobin e bucket_idx b w = Returns (-1, None) w'
     /\ persistent_state w' = persistent_state w
     /\ fd_table w' = fd_table w
     /\ err_stream w' = err_stream w ++ [Perror "mkdir"; FailedToCreateDir])
  /\ (mkdir_error e = false -> open_error e = true ->
      exists w',
        select_nic_roundrobin e bucket_idx b w = Returns (-1, None) w'
        /\ counter_files w' = counter_files w
        /\ fd_table w' = fd_table w
        /\ held_locks w' = held_locks w
        /\ err_stream w'
           = err_stream w ++ [Perror "open"; FailedToOpen bucket_idx;
                              Perror "pread"; FailedToRead bucket_idx])
  /\ (mkdir_error e = false -> open_error e = false ->
      pread_error e = true \/ (pwrite_error e = true /\ num_nics b <> 0) ->
      exists w',
        select_nic_roundrobin e bucket_idx b w = Returns (-1, None) w'
        /\ counter_value w' bucket_idx = counter_value w bucket_idx
        /\ held_locks w' = held_locks w ∖ {[bucket_idx]}
        /\ err_stream w'
           = err_stream w
             ++ (if pread_error e
                 then [Perror "pread"; FailedToRead bucket_idx]
                 else [Perror "pwrite"; FailedToWrite bucket_idx]))
  /\ (mkdir_error e = false ->
      select_nic_roundrobin e bucket_idx b (set_scratch_dir true w)
      = select_nic_roundrobin e bucket_idx b w).
Proof.
  repeat split.
  - intros Hmk. rewrite roundrobin_mkdir_failed by done.
    eexists. split; [done|]. cbn. by rewrite <- app_assoc.
  - intros Hmk Hop. rewrite roundrobin_open_failed by done.
    eexists. split; [done|]. cbn. by rewrite <- !app_assoc.
  - intros Hmk Hop Herr.
    destruct (roundrobin_rw_failed e bucket_idx b w Hmk Hop Herr)
      as (w' & Hcall & _ & _ & Hsame & _ & Hlocks & Hdiag).
    exists w'. split; [done|]. split; [|done].
    unfold counter_value. by rewrite Hsame.
  - intros Hmk. by rewrite !roundrobin_mkdir_ok.
Qed.

(** X2. A round-robin call on bucket [bucket_idx] that returns, with
    whatever status, leaves the counter file of every other bucket as it
    found it. *)
Theorem roundrobin_other_buckets e bucket_idx b w r w' j :
  select_nic_roundrobin e bucket_idx b w = Returns r w' ->
  j <> bucket_idx ->
  counter_files w' !! j = counter_files w !! j.
Proof.
  intros Hcall Hj. destruct r as [ret out].
  destruct (mkdir_error e) eqn:Hmk.
  { rewrite roundrobin_mkdir_failed in Hcall by done. by simplify_eq. }
  destruct (open_error e) eqn:Hop.
  { rewrite roundrobin_open_failed in Hcall by done. by simplify_eq. }
  destruct (pread_error e) eqn:Hrd.
  { destruct (roundrobin_rw_failed e bucket_idx b w Hmk Hop)
      as (w'' & Hcall' & _ & Hother & _); [by left|].
    rewrite Hcall' in Hcall. simplify_eq. by apply Hother. }
  destruct (Z.eq_dec (num_nics b) 0) as [HN|HN].
  { by rewrite roundrobin_empty_bucket in Hcall. }
  destruct (pwrite_error e) eqn:Hwr.
  { destruct (roundrobin_rw_failed e bucket_idx b w Hmk Hop)
      as (w'' & Hcall' & _ & Hother & _); [by right|].
    rewrite Hcall' in Hcall. simplify_eq. by apply Hother. }
  rewrite roundrobin_step in Hcall by done.
  destruct (index b _); [|done]. simplify_eq.
  unfold after_roundrobin; cbn [counter_files].
  by apply lookup_insert_ne.
Qed.

(** ** Round-robin: many calls *)

Lemma roundrobin_calls_formula e bucket_idx b :
  mkdir_error e = false -> open_error e = false ->
  pread_error e = false -> pwrite_error e = false ->
  1 <= num_nics b <= CInt.INT_MAX ->
  forall k w,
    -1 <= counter_value w bucket_idx < num_nics b ->
    exists w',
      roundrobin_calls e bucket_idx b k w
      = Returns
          ((fun j : nat =>
              (0, index b ((counter_value w bucket_idx + 1 + Z.of_nat j)
                           mod num_nics b))) <$> seq 0 k) w'
      /\ counter_value w' bucket_idx
         = (if k is O then counter_value w bucket_idx
            else (counter_value w bucket_idx + Z.of_nat k) mod num_nics b)
      /\ forall j, j <> bucket_idx ->
           counter_files w' !! j = counter_files w !! j.
Proof.
  intros Hmk Hop Hrd Hwr HN k.
  induction k as [|k IH]; intros w Hc.
  { exists w. by repeat split. }
  cbn [roundrobin_calls].
  destruct (roundrobin_next e bucket_idx b w) as (name & Hname & Hcall);
    try done; [lia..|].
  cbv zeta in Hname, Hcall. rewrite Hcall.
  set (c := counter_value w bucket_idx) in *.
  set (w1 := after_roundrobin bucket_idx ((c + 1) mod num_nics b) w).
  assert (Hrange : 0 <= (c + 1) mod num_nics b < num_nics b)
    by (apply Z.mod_pos_bound; lia).
  assert (Hc1 : counter_value w1 bucket_idx = (c + 1) mod num_nics b).
  { apply counter_value_after. unfold CInt.INT_MIN, CInt.INT_MAX in *. lia. }
  destruct (IH w1) as (w' & Hrest & Hfinal & Hother); [rewrite Hc1; lia|].
  rewrite Hrest. exists w'. split; [|split].
  - f_equal. cbn [seq fmap list_fmap]. f_equal.
    + rewrite Z.add_0_r. by rewrite Hname.
    + rewrite <- fmap_S_seq, <- list_fmap_compose.
      apply list_fmap_ext. intros _ j _. cbn. rewrite Hc1. do 2 f_equal.
      rewrite <- Z.add_assoc, Z.add_mod_idemp_l by lia. f_equal. lia.
  - rewrite Hfinal, Hc1. destruct k as [|k].
    + f_equal; lia.
    + rewrite Z.add_mod_idemp_l by lia. f_equal; lia.
  - intros j Hj. rewrite Hother by done.
    unfold w1, after_roundrobin; cbn [counter_files].
    by apply lookup_insert_ne.
Qed.

(** X3. Rotation over any number of calls.  With no failing system call,
    a bucket of [N] NICs (1 to INT_MAX) and a stored counter [c] in
    [-1, N), [k] calls in a row all return status 0, call number [j]
    (from 0) returns the NIC at index [(c + 1 + j) mod N], and the file
    ends at [(c + k) mod N]; the indices repeat with period [N].  From an
    absent counter file, [N] calls return every NIC of the bucket exactly
    once, in bucket order. *)
Theorem roundrobin_cycle e bucket_idx b :
  no_io_error e ->
  1 <= num_nics b <= CInt.INT_MAX ->
  (forall k w,
     -1 <= counter_value w bucket_idx < num_nics b ->
     exists w',
       roundrobin_calls e bucket_idx b k w
       = Returns
           ((fun j : nat =>
               (0, index b ((counter_value w bucket_idx + 1 + Z.of_nat j)
                            mod num_nics b))) <$> seq 0 k) w'
       /\ (k <> 0%nat ->
           counter_value w' bucket_idx
           = (counter_value w bucket_idx + Z.of_nat k) mod num_nics b))
  /\ (forall w,
        counter_files w !! bucket_idx = None ->
        exists w',
          roundrobin_calls e bucket_idx b (length b) w
          = Returns ((fun name => (0, Some name)) <$> b) w'
          /\ counter_value w' bucket_idx = num_nics b - 1).
Proof.
  intros (Hmk & Hop & _ & Hrd & Hwr) HN.
  pose proof (roundrobin_calls_formula e bucket_idx b Hmk Hop Hrd Hwr HN)
    as Hformula.
  split.
  - intros k w Hc. destruct (Hformula k w Hc) as (w' & Hrun & Hfinal & _).
    exists w'. split; [done|]. intros Hk. by destruct k.
  - intros w Hf.
    assert (Hc : counter_value w bucket_idx = -1)
      by (apply counter_value_absent; by left).
    destruct (Hformula (length b) w) as (w' & Hrun & Hfinal & _);
      [rewrite Hc; lia|].
    exists w'. split.
    + rewrite Hrun. f_equal. rewrite Hc. apply list_eq. intros i.
      rewrite !list_lookup_fmap.
      destruct (decide (i < length b)%nat) as [Hi|Hi].
      * rewrite lookup_seq_lt by done. cbn.
        destruct (lookup_lt_is_Some_2 b i Hi) as [name Hname].
        rewrite Hname. cbn. do 2 f_equal.
        replace (-1 + 1 + Z.of_nat i) with (Z.of_nat i) by lia.
        rewrite Z.mod_small by (unfold num_nics; lia).
        unfold index. destruct (Z.ltb_spec (Z.of_nat i) 0); [lia|].
        by rewrite Nat2Z.id.
      * rewrite lookup_seq_ge by lia.
        by rewrite lookup_ge_None_2 by lia.
    + rewrite Hfinal, Hc. unfold num_nics in *.
      destruct (length b) as [|n] eqn:Hlen; [lia|].
      replace (-1 + Z.of_nat (S n)) with (Z.of_nat n) by lia.
      rewrite Z.mod_small by lia. lia.
Qed.

(** X4. A counter file that holds a value below -1 (a file written by
    something else, or one to three bytes long, which read as a negative
    number) sends the call outside the bucket: unless [value + 1] is a
    multiple of [N], the remainder of line 281 is negative and line 292
    reads [nics] at a negative index. *)
Theorem roundrobin_corrupt_counter e bucket_idx b w :
  mkdir_error e = false -> open_error e = false ->
  pread_error e = false -> pwrite_error e = false ->
  1 <= num_nics b ->
  counter_value w bucket_idx < -1 ->
  ~ (num_nics b | counter_value w bucket_idx + 1) ->
  select_nic_roundrobin e bucket_idx b w = Crashes OutOfBounds.
Proof.
  intros Hmk Hop Hrd Hwr HN Hc Hdiv.
  rewrite roundrobin_step by (done || lia).
  destruct (index b (next_index w bucket_idx b)) as [name|] eqn:Hidx;
    [|done].
  apply index_range in Hidx as [Hpos _]. exfalso.
  unfold next_index, CInt.rem in Hpos.
  pose proof (counter_value_range w bucket_idx) as Hr.
  rewrite wrap_small in Hpos
    by (unfold CInt.INT_MIN, CInt.INT_MAX in *; lia).
  pose proof (Z.rem_nonpos (counter_value w bucket_idx + 1) (num_nics b)
                ltac:(lia) ltac:(lia)) as Hneg.
  apply Hdiv. apply Z.rem_divide; lia.
Qed.

(** ** The random policy *)

(** X5. The random policy on a bucket of [N >= 1] NICs, with [rand()]
    answering a number that is not negative: status 0, the NIC at index
    [rand() mod N], which lies in [0, N), and a world left exactly as it
    was (no file, no lock, no diagnostic). *)
Theorem random_draw e bucket_idx b w :
  0 <= rand_value e -> 1 <= num_nics b ->
  exists name,
    select_nic_random e bucket_idx b w = Returns (0, Some name) w
    /\ index b (rand_value e mod num_nics b) = Some name
    /\ 0 <= rand_value e mod num_nics b < num_nics b.
Proof.
  intros Hr HN. unfold select_nic_random.
  destruct (Z.eqb_spec (num_nics b) 0); [lia|].
  rewrite rem_mod by lia.
  assert (Hin : 0 <= rand_value e mod num_nics b < num_nics b)
    by (apply Z.mod_pos_bound; lia).
  destruct (index_is_Some b _ Hin) as [name Hname].
  exists name. by rewrite Hname.
Qed.

(** ** [select_nic]: which NIC, and what it touches *)

(** A NIC returned with status 0 is a member of the bucket chosen for the
    call. *)
Lemma select_nic_picks e bucket_policy nic_policy nbuckets buckets w
    name w' :
  select_nic e bucket_policy nic_policy nbuckets buckets w
  = Returns (0, Some name) w' ->
  exists bucket_idx b,
    select_bucket (topology e) bucket_policy nbuckets w
    = Returns (inr bucket_idx) w
    /\ index buckets bucket_idx = Some b
    /\ name ∈ b.
Proof.
  unfold select_nic.
  destruct (select_bucket _ _ _ _) as [[ret0|bucket_idx] w0|] eqn:Hsel;
    [| |discriminate];
    pose proof Hsel as Hsel';
    apply select_bucket_returns in Hsel'
      as [(i & Hr & -> & _) | (d & Hr & ->)];
    try discriminate.
  injection Hr as <-.
  destruct (index buckets bucket_idx) as [b|] eqn:Hb; [|discriminate].
  assert (Hmem : forall i, index b i = Some name -> name ∈ b).
  { intros i [_ Hi]%index_Some. by eapply list_elem_of_lookup_2. }
  intros Hcall. exists bucket_idx, b. split; [done|]. split; [done|].
  destruct (num_nics b =? 1).
  { destruct (index b 0) eqn:H0; [|discriminate].
    simplify_eq. by apply (Hmem 0). }
  destruct (String.eqb nic_policy "roundrobin").
  { apply roundrobin_success_inv in Hcall as (_ & _ & Hout & _).
    by apply (Hmem (next_index w bucket_idx b)). }
  destruct (String.eqb nic_policy "random"); [|discriminate].
  unfold select_nic_random in Hcall.
  destruct (num_nics b =? 0); [discriminate|].
  destruct (index b _) eqn:Hi; [|discriminate].
  simplify_eq. by eapply Hmem.
Qed.

(** Without the policy roundrobin [select_nic] changes nothing but the
    error stream. *)
Lemma select_nic_no_io e bucket_policy nic_policy nbuckets buckets w r w' :
  nic_policy <> "roundrobin"%string ->
  select_nic e bucket_policy nic_policy nbuckets buckets w = Returns r w' ->
  persistent_state w' = persistent_state w
  /\ fd_table w' = fd_table w
  /\ held_locks w' = held_locks w
  /\ live_topologies w' = live_topologies w
  /\ live_fi_infos w' = live_fi_infos w.
Proof.
  intros Hnp. unfold select_nic.
  destruct (select_bucket _ _ _ _) as [[ret0|bucket_idx] w0|] eqn:Hsel;
    [| |discriminate];
    apply select_bucket_returns in Hsel
      as [(i & Hr & -> & _) | (d & Hr & ->)];
    try discriminate.
  { intros [= <- <-]. by cbn. }
  destruct (index buckets bucket_idx) as [b|]; [|discriminate].
  destruct (num_nics b =? 1).
  { destruct (index b 0); [|discriminate]. by intros [= <- <-]. }
  destruct (String.eqb_spec nic_policy "roundrobin"); [done|].
  destruct (String.eqb nic_policy "random").
  { unfold select_nic_random. destruct (num_nics b =? 0); [discriminate|].
    destruct (index b _); [|discriminate]. by intros [= <- <-]. }
  intros [= <- <-]. by cbn.
Qed.

(** ** The entry point: status, output and provenance of the NIC *)

Lemma append_empty a : a +:+ "" = a.
Proof.
  induction a as [|c a IH]; [done|].
  change (String c a +:+ "") with (String c (a +:+ "")). by rewrite IH.
Qed.

(** Every name in a bucket after the loop was in a bucket before it or is
    the name of an enumerated entry with PCI bus data. *)
Lemma assign_buckets_names t nbuckets infos :
  forall bs bs' : list (list string),
    assign_buckets t nbuckets infos bs = Assigned bs' ->
    forall b name, b ∈ bs' -> name ∈ b ->
      (exists b0, b0 ∈ bs /\ name ∈ b0) \/ name ∈ pci_nics infos.
Proof.
  induction infos as [|c infos IH]; intros bs bs'; cbn [assign_buckets].
  { intros [= <-] b name Hb Hname. left. by exists b. }
  destruct (pci_of c) as [pci|] eqn:Hpci.
  - destruct (get_pcidev_by_busid t pci) as [dev|]; [|done].
    unfold append_nic.
    destruct (index bs _) as [b0|] eqn:Hb0; [|done].
    intros Hrun b name Hb Hname.
    assert (Hcons : pci_nics (c :: infos)
                    = domain_attr_name c :: pci_nics infos).
    { unfold pci_nics. rewrite filter_cons_True; [done|]. by rewrite Hpci. }
    rewrite Hcons.
    destruct (IH _ _ Hrun b name Hb Hname) as [(b1 & Hb1 & Hn1)|Hin].
    + apply list_elem_of_lookup in Hb1 as [i Hi].
      apply list_lookup_insert_Some in Hi as [(_ & <- & _)|[_ Hi]].
      * apply elem_of_app in Hn1 as [Hn1|Hn1].
        -- left. exists b0. split; [|done].
           apply index_Some in Hb0 as [_ Hb0].
           by eapply list_elem_of_lookup_2.
        -- right. apply list_elem_of_singleton in Hn1 as ->.
           by apply elem_of_cons; left.
      * left. exists b1. split; [|done]. by eapply list_elem_of_lookup_2.
    + right. by apply elem_of_cons; right.
  - intros Hrun b name Hb Hname.
    destruct (IH _ _ Hrun b name Hb Hname) as [?|Hin]; [by left|].
    right. unfold pci_nics. rewrite filter_cons_False; [done|].
    rewrite Hpci. by intros [? ?].
Qed.

(** X6. What the entry point hands back.  Whenever it returns, the status
    is 0, -1, or the status of a failed [fi_getinfo]; something is stored
    through [out_address] exactly when the status is 0; and what is
    stored starts with the input address. *)
Theorem resolve_status_and_output e a bucket_policy nic_policy w ret out w' :
  mochi_plumber_resolve_nic e a bucket_policy nic_policy w
  = Returns (ret, out) w' ->
  (ret = 0 \/ ret = -1 \/ (ret = fi_getinfo_ret e /\ ret <> 0))
  /\ (ret = 0 <-> is_Some out)
  /\ (forall o, out = Some o -> exists suffix, o = a +:+ suffix).
Proof.
  assert (eligible a \/ ~ eligible a) as [Hel|Hne].
  { destruct (not_cxi a) eqn:H1;
      [right; apply not_eligible_checks; by left|].
    destruct (already_specific a) eqn:H2;
      [right; apply not_eligible_checks; by right|].
    left. by apply eligible_checks. }
  - intros Hcall. apply resolve_exit_path in Hcall; [|done].
    destruct Hcall as [Hnb | nb Hnb Hmem | nb Hnb Hmem Hfi'
      | nb name Hnb Hmem Hfi' Has | nb bs i Hnb Hmem Hfi' Has Hem
      | nb bs sret sout ws Hnb Hmem Hfi' Has Hem Hsel Hneg
      | nb bs sret name ws Hnb Hmem Hfi' Has Hem Hsel Hpos].
    1,2,4,5,6: split; [by auto|]; split; [|done];
      (split; [done|by intros [? ?]]).
    + split; [by auto|]. split; [|done].
      split; [done|by intros [? ?]].
    + split; [by auto|]. split; [by split; eauto|].
      intros o [= <-]. by exists name.
  - rewrite resolve_not_eligible by done. intros [= <- <- <-].
    split; [by auto|]. split; [by split; eauto|].
    intros o [= <-]. exists ""%string. by rewrite append_empty.
Qed.

Lemma resolve_picks_enumerated e a bucket_policy nic_policy w o w' :
  eligible a ->
  mochi_plumber_resolve_nic e a bucket_policy nic_policy w
  = Returns (0, Some o) w' ->
  exists name, o = a +:+ name /\ name ∈ pci_nics (fi_getinfo_info e).
Proof.
  intros Hel Hcall. apply resolve_exit_path in Hcall; [|done].
  inversion Hcall as [| | | | |
    | nb bs sret name ws Hnb Hmem Hfi Has Hem Hsel Hpos]; subst.
  exists name. split; [done|].
  assert (sret = 0) as ->.
  { apply select_nic_returns in Hsel as (_ & _ & _ & [[-> _]|[-> _]]);
      [lia|done]. }
  apply select_nic_picks in Hsel as (i & b & _ & Hb & Hname).
  apply index_Some in Hb as [_ Hb].
  destruct (assign_buckets_names _ _ _ _ _ Has b name) as [(b0 & Hb0 & Hn)|?];
    [by eapply list_elem_of_lookup_2|done| |done].
  apply elem_of_replicate in Hb0 as [-> _]. by apply elem_of_nil in Hn.
Qed.

(** X7. The NIC of a resolved address is an enumerated one: when the
    entry point returns 0 on an eligible address, the output is the input
    followed by the domain name of an entry of the [fi_getinfo] list that
    has PCI bus data and whose device the topology knows. *)
Theorem resolved_nic_is_enumerated e a bucket_policy nic_policy w o w' :
  eligible a ->
  mochi_plumber_resolve_nic e a bucket_policy nic_policy w
  = Returns (0, Some o) w' ->
  exists c pci,
    c ∈ fi_getinfo_info e
    /\ pci_of c = Some pci
    /\ is_Some (get_pcidev_by_busid (topology e) pci)
    /\ o = a +:+ domain_attr_name c.
Proof.
  intros Hel Hcall.
  destruct (resolve_picks_enumerated _ _ _ _ _ _ _ Hel Hcall)
    as (name & -> & Hin).
  apply list_elem_of_fmap in Hin as (c & -> & Hc).
  apply list_elem_of_filter in Hc as [[pci Hpci] Hc].
  exists c, pci. split; [done|]. split; [done|]. split; [|done].
  destruct (get_pcidev_by_busid (topology e) pci) as [dev|] eqn:Hdev;
    [by eexists|].
  apply resolve_exit_path in Hcall; [|done].
  inversion Hcall as [| | | | |
    | nb bs sret name ws Hnb Hmem Hfi Has Hem Hsel Hpos]; subst.
  destruct (assign_buckets_not_found (topology e) nb (fi_getinfo_info e)
              (replicate (Z.to_nat nb) [])) as [[? Hno]|Hno];
    [by exists c, pci|congruence|congruence].
Qed.

Lemma last_char_app a s :
  s <> ""%string -> last_char (a +:+ s) = last_char s.
Proof.
  intros Hs. induction a as [|c a IH]; [done|].
  change (String c a +:+ s) with (String c (a +:+ s)).
  unfold last_char in *. cbn [String.length Nat.sub]. rewrite Nat.sub_0_r.
  destruct (String.length (a +:+ s)) as [|n] eqn:Hlen.
  - destruct a; [|done]. by destruct s.
  - cbn [String.get]. rewrite <- IH. cbn [Nat.sub]. by rewrite Nat.sub_0_r.
Qed.

(** X8. Resolving twice.  When no enumerated NIC name is empty or ends
    with a slash, the address a successful resolution returns is no longer
    eligible: any later call, on any node and with any policies, hands it
    back unchanged with status 0 and touches nothing. *)
Theorem resolve_output_passes_through e a bucket_policy nic_policy w o w' :
  eligible a ->
  (forall name, name ∈ pci_nics (fi_getinfo_info e) ->
     exists c, last_char name = Some c /\ c <> "/"%char) ->
  mochi_plumber_resolve_nic e a bucket_policy nic_policy w
  = Returns (0, Some o) w' ->
  forall e2 bucket_policy2 nic_policy2 w2,
    mochi_plumber_resolve_nic e2 o bucket_policy2 nic_policy2 w2
    = Returns (0, Some o) w2.
Proof.
  intros Hel Hnames Hcall e2 bp2 np2 w2.
  destruct (resolve_picks_enumerated _ _ _ _ _ _ _ Hel Hcall)
    as (name & -> & Hin).
  destruct (Hnames name Hin) as (c & Hlast & Hc).
  apply resolve_not_eligible, not_eligible_checks. right.
  unfold already_specific. apply orb_true_iff. left.
  apply negb_true_iff, bool_decide_eq_false.
  fold (last_char (a +:+ name)). rewrite last_char_app, Hlast.
  - congruence.
  - intros ->. discriminate.
Qed.

(** X9. Only the policy roundrobin touches the file system.  Under any
    other NIC policy string (random, or one the code does not know) a call
    that returns leaves the scratch directory, every counter file, the
    descriptor table and the locks exactly as they were. *)
Theorem only_roundrobin_touches_files e a bucket_policy nic_policy w r w' :
  nic_policy <> "roundrobin"%string ->
  mochi_plumber_resolve_nic e a bucket_policy nic_policy w = Returns r w' ->
  persistent_state w' = persistent_state w
  /\ fd_table w' = fd_table w
  /\ held_locks w' = held_locks w.
Proof.
  intros Hnp. destruct r as [ret out].
  assert (eligible a \/ ~ eligible a) as [Hel|Hne].
  { destruct (not_cxi a) eqn:H1;
      [right; apply not_eligible_checks; by left|].
    destruct (already_specific a) eqn:H2;
      [right; apply not_eligible_checks; by right|].
    left. by apply eligible_checks. }
  - intros Hcall. apply resolve_exit_path in Hcall; [|done].
    destruct Hcall as [Hnb | nb Hnb Hmem | nb Hnb Hmem Hfi'
      | nb name Hnb Hmem Hfi' Has | nb bs i Hnb Hmem Hfi' Has Hem
      | nb bs sret sout ws Hnb Hmem Hfi' Has Hem Hsel Hneg
      | nb bs sret name ws Hnb Hmem Hfi' Has Hem Hsel Hpos].
    1-5: done.
    all: apply select_nic_no_io in Hsel as (Hp & Hf & Hl & _); [|done].
    all: cbn in *; by rewrite Hf, Hl.
  - rewrite resolve_not_eligible by done. by intros [= <- <- <-].
Qed.

(** X10. One NUMA node: the policy numa is the policy all.  When the
    complete node set has weight 1 the two policies build the same single
    bucket and draw from it without asking where the thread runs, so the
    two calls are the same call. *)
Theorem single_numa_node_is_all e a nic_policy w :
  complete_nodeset_weight (topology e) = 1 ->
  mochi_plumber_resolve_nic e a "numa" nic_policy w
  = mochi_plumber_resolve_nic e a "all" nic_policy w.
Proof.
  intros Hw. unfold mochi_plumber_resolve_nic, count_buckets.
  cbn [String.eqb Ascii.eqb Bool.eqb]. rewrite Hw. reflexivity.
Qed.

(** ** The policy numa *)

(** A name in bucket [i] after the loop was there before it or belongs to
    an entry for which the loop computed the index [i]. *)
Lemma assign_buckets_member t nbuckets infos :
  forall bs bs' : list (list string),
    assign_buckets t nbuckets infos bs = Assigned bs' ->
    forall i b name, bs' !! i = Some b -> name ∈ b ->
      (exists b0, bs !! i = Some b0 /\ name ∈ b0)
      \/ exists c, c ∈ infos /\ target t nbuckets c = Some (Z.of_nat i)
                   /\ domain_attr_name c = name.
Proof.
  induction infos as [|c infos IH]; intros bs bs'; cbn [assign_buckets].
  { intros [= <-] i b name Hb Hname. left. by exists b. }
  assert (Hlater : forall i name,
    (exists c', c' ∈ infos /\ target t nbuckets c' = Some (Z.of_nat i)
                /\ domain_attr_name c' = name) ->
    exists c', c' ∈ c :: infos
               /\ target t nbuckets c' = Some (Z.of_nat i)
               /\ domain_attr_name c' = name).
  { intros i name (c' & Hc' & ?). exists c'. split; [|done].
    by apply elem_of_cons; right. }
  destruct (pci_of c) as [pci|] eqn:Hpci.
  - destruct (get_pcidev_by_busid t pci) as [dev|] eqn:Hdev; [|done].
    set (idx := if nbuckets =? 1 then 0
                else non_io_ancestor_first_node t dev).
    unfold append_nic.
    destruct (index bs idx) as [b0|] eqn:Hb0; [|done].
    apply index_Some in Hb0 as [Hidx Hb0].
    intros Hrun i b name Hb Hname.
    destruct (IH _ _ Hrun i b name Hb Hname) as [(b1 & Hb1 & Hn1)|Hin];
      [|right; by apply Hlater].
    apply list_lookup_insert_Some in Hb1 as [(<- & <- & _)|[_ Hb1]];
      [|left; by exists b1].
    apply elem_of_app in Hn1 as [Hn1|Hn1]; [left; by exists b0|].
    apply list_elem_of_singleton in Hn1 as ->.
    right. exists c. split; [by apply elem_of_cons; left|]. split; [|done].
    unfold target. rewrite Hpci, Hdev. fold idx. f_equal. lia.
  - intros Hrun i b name Hb Hname.
    destruct (IH _ _ Hrun i b name Hb Hname) as [?|Hin]; [by left|].
    right. by apply Hlater.
Qed.

(** X11. Locality under the policy numa.  On a node with two or more NUMA
    domains, the NIC of a successful resolution belongs to an enumerated
    entry whose PCI device the topology places in the very domain the
    calling thread last ran in. *)
Theorem numa_locality e a nic_policy w o w' :
  eligible a ->
  2 <= complete_nodeset_weight (topology e) ->
  mochi_plumber_resolve_nic e a "numa" nic_policy w
  = Returns (0, Some o) w' ->
  exists c d,
    c ∈ fi_getinfo_info e
    /\ o = a +:+ domain_attr_name c
    /\ affinity_domain (topology e) c = Some d
    /\ last_cpu_first_node (topology e) = Some d.
Proof.
  intros Hel Hw Hcall. apply resolve_exit_path in Hcall; [|done].
  inversion Hcall as [| | | | |
    | nb bs sret name ws Hnb Hmem Hfi Has Hem Hsel Hpos]; subst.
  injection Hnb as <-.
  assert (sret = 0) as ->.
  { apply select_nic_returns in Hsel as (_ & _ & _ & [[-> _]|[-> _]]);
      [lia|done]. }
  apply select_nic_picks in Hsel as (i & b & Hsb & Hb & Hname).
  apply select_bucket_returns in Hsb
    as [(i' & [= <-] & _ & [[? _]|(Hnb & _ & Hcpu & _)])|(? & ? & _)];
    [lia| |done].
  apply index_Some in Hb as [Hi Hb].
  destruct (assign_buckets_member _ _ _ _ _ Has _ _ _ Hb Hname)
    as [(b0 & Hb0 & Hn)|(c & Hc & Htarget & <-)].
  { apply lookup_replicate in Hb0 as [-> _]. by apply elem_of_nil in Hn. }
  exists c, i. split; [done|]. split; [done|]. split; [|done].
  rewrite Z2Nat.id in Htarget by done.
  unfold target, affinity_domain in *.
  destruct (pci_of c) as [pci|]; [|done].
  destruct (get_pcidev_by_busid _ pci) as [dev|]; [|done].
  by destruct (Z.eqb_spec (complete_nodeset_weight (topology e)) 1).
Qed.

Lemma target_affinity t nbuckets c i :
  (forall d, affinity_domain t c = Some d -> 0 <= d < nbuckets) ->
  target t nbuckets c = Some i <-> affinity_domain t c = Some i.
Proof.
  intros Hr. unfold target, affinity_domain in *.
  destruct (pci_of c) as [pci|]; [|done].
  destruct (get_pcidev_by_busid t pci) as [dev|]; [|done].
  cbn [fmap option_fmap option_map] in *.
  destruct (Z.eqb_spec nbuckets 1) as [Hnb|_]; [|done].
  specialize (Hr _ eq_refl). split; intros [= <-]; f_equal; lia.
Qed.

(** The buckets of the policy numa on a topology that knows every NIC and
    numbers its domains below the weight of the node set. *)
Lemma numa_buckets t infos :
  0 <= complete_nodeset_weight t ->
  (forall c pci, c ∈ infos -> pci_of c = Some pci ->
     is_Some (get_pcidev_by_busid t pci)) ->
  (forall c d, c ∈ infos -> affinity_domain t c = Some d ->
     0 <= d < complete_nodeset_weight t) ->
  exists buckets : list (list string),
    assign_buckets t (complete_nodeset_weight t) infos
      (replicate (Z.to_nat (complete_nodeset_weight t)) [])
    = Assigned buckets
    /\ length buckets = Z.to_nat (complete_nodeset_weight t)
    /\ forall i, (i < length buckets)%nat ->
         buckets !! i = Some (nics_of_domain t (Z.of_nat i) infos).
Proof.
  intros Hw Hfound Hrange. set (nb := complete_nodeset_weight t) in *.
  destruct (assign_buckets_spec t nb infos (replicate (Z.to_nat nb) []))
    as (bs' & Hrun & Hlen & Hget).
  { intros c Hc [pci Hpci]. rewrite length_replicate, Z2Nat.id by done.
    destruct (Hfound c pci Hc Hpci) as [dev Hdev].
    assert (Haff : affinity_domain t c
                   = Some (non_io_ancestor_first_node t dev)).
    { unfold affinity_domain. by rewrite Hpci, Hdev. }
    exists (non_io_ancestor_first_node t dev). split.
    - apply target_affinity; [|done]. intros d. by apply Hrange.
    - by apply (Hrange c). }
  rewrite length_replicate in Hlen.
  exists bs'. split; [done|]. split; [done|].
  intros i Hi. rewrite (Hget i []) by (apply lookup_replicate_2; lia).
  cbn [app]. f_equal. unfold assigned_to, nics_of_domain. f_equal.
  apply filter_ext_in. intros c Hc. apply target_affinity.
  intros d. by apply Hrange.
Qed.

(** X12. The policy numa needs a NIC in every domain.  On a topology that
    knows every enumerated NIC and numbers its domains below the weight of
    the node set, one domain without a NIC makes every resolution fail,
    wherever the thread runs and whatever the NIC policy: status -1, a
    diagnostic naming the lowest domain without a NIC, nothing persistent
    touched. *)
Theorem numa_needs_nic_in_every_domain e a nic_policy w d :
  eligible a ->
  calloc_null e = false ->
  fi_getinfo_ret e = 0 ->
  (forall c pci, c ∈ fi_getinfo_info e -> pci_of c = Some pci ->
     is_Some (get_pcidev_by_busid (topology e) pci)) ->
  (forall c d', c ∈ fi_getinfo_info e ->
     affinity_domain (topology e) c = Some d' ->
     0 <= d' < complete_nodeset_weight (topology e)) ->
  0 <= d < complete_nodeset_weight (topology e) ->
  nics_of_domain (topology e) d (fi_getinfo_info e) = [] ->
  exists i w',
    mochi_plumber_resolve_nic e a "numa" nic_policy w
    = Returns (-1, None) w'
    /\ 0 <= i <= d
    /\ nics_of_domain (topology e) i (fi_getinfo_info e) = []
    /\ err_stream w' = err_stream w ++ [BucketHasNoNics i]
    /\ persistent_state w' = persistent_state w.
Proof.
  intros Hel Hmem Hfi Hfound Hrange Hd Hempty.
  destruct (numa_buckets (topology e) (fi_getinfo_info e))
    as (bs & Has & Hlen & Hget); [lia|done|done|].
  assert (Hbd : bs !! Z.to_nat d = Some []).
  { rewrite Hget by lia. by rewrite Z2Nat.id, Hempty by lia. }
  destruct (first_empty_bucket 0 bs) as [i|] eqn:Hfirst.
  2:{ by destruct (proj1 (first_empty_bucket_None bs 0) Hfirst
                     (Z.to_nat d)). }
  pose proof Hfirst as Hfirst'.
  apply first_empty_bucket_Some in Hfirst' as (Hi & Hbi & Hbefore).
  rewrite Z.sub_0_r in Hbi, Hbefore.
  assert (Hid : i <= d).
  { destruct (Z.le_gt_cases i d) as [|Hgt]; [done|].
    by destruct (Hbefore (Z.to_nat d) [] ltac:(lia) Hbd). }
  exists i. eexists. split.
  - apply resolve_exit_path; [done|].
    eapply ExitEmptyBucket; try done.
    destruct (Z.ltb_spec (complete_nodeset_weight (topology e)) 0);
      [lia|done].
  - split; [lia|]. split; [|done].
    pose proof (lookup_lt_Some _ _ _ Hbi) as Hlt.
    rewrite Hget in Hbi by done. rewrite Z2Nat.id in Hbi by lia.
    by injection Hbi.
Qed.

Lemma index_None_out {A} (a : list A) i :
  ~ (0 <= i < Z.of_nat (length a)) -> index a i = None.
Proof.
  intros Hi. unfold index. destruct (Z.ltb_spec i 0); [done|].
  apply lookup_ge_None_2. lia.
Qed.

(** The loop stores outside the array as soon as an entry known to the
    topology gets an index that is not one of the array. *)
Lemma assign_buckets_out_of_range t nbuckets infos :
  forall bs : list (list string),
    (forall c pci, c ∈ infos -> pci_of c = Some pci ->
       is_Some (get_pcidev_by_busid t pci)) ->
    (exists c i, c ∈ infos /\ target t nbuckets c = Some i
                 /\ ~ (0 <= i < Z.of_nat (length bs))) ->
    assign_buckets t nbuckets infos bs = AssignCrashes OutOfBounds.
Proof.
  induction infos as [|c0 infos IH]; intros bs Hfound (c & i & Hc & Hi & Hout).
  { by apply elem_of_nil in Hc. }
  cbn [assign_buckets].
  assert (Hfound' : forall c pci, c ∈ infos -> pci_of c = Some pci ->
            is_Some (get_pcidev_by_busid t pci)).
  { intros c' pci' Hc'. apply Hfound. by apply elem_of_cons; right. }
  destruct (pci_of c0) as [pci0|] eqn:Hpci0.
  - destruct (Hfound c0 pci0) as [dev Hdev];
      [by apply elem_of_cons; left|done|].
    rewrite Hdev.
    set (i0 := if nbuckets =? 1 then 0
               else non_io_ancestor_first_node t dev).
    assert (Ht0 : target t nbuckets c0 = Some i0).
    { unfold target. by rewrite Hpci0, Hdev. }
    unfold append_nic.
    destruct (index bs i0) as [b0|] eqn:Hb0; [|done].
    apply IH; [done|]. exists c, i. rewrite length_insert.
    split; [|done].
    apply elem_of_cons in Hc as [->|Hc]; [|done].
    apply index_range in Hb0. congruence.
  - apply IH; [done|]. exists c, i. split; [|done].
    apply elem_of_cons in Hc as [->|Hc]; [|done].
    unfold target in Hi. by rewrite Hpci0 in Hi.
Qed.

(** X13. Domain numbers are used as array indices without a check.  Under
    the policy numa with a node set of weight other than 1, on a topology
    that knows every enumerated NIC, one NIC whose domain number is not
    below that weight (or is negative) makes the loop of lines 120-154
    store outside [buckets]. *)
Theorem sparse_domain_numbers_overflow e a nic_policy w :
  eligible a ->
  calloc_null e = false ->
  fi_getinfo_ret e = 0 ->
  0 <= complete_nodeset_weight (topology e) ->
  complete_nodeset_weight (topology e) <> 1 ->
  (forall c pci, c ∈ fi_getinfo_info e -> pci_of c = Some pci ->
     is_Some (get_pcidev_by_busid (topology e) pci)) ->
  (exists c d, c ∈ fi_getinfo_info e
               /\ affinity_domain (topology e) c = Some d
               /\ ~ (0 <= d < complete_nodeset_weight (topology e))) ->
  mochi_plumber_resolve_nic e a "numa" nic_policy w = Crashes OutOfBounds.
Proof.
  intros Hel Hmem Hfi Hw Hw1 Hfound (c & d & Hc & Hd & Hout).
  enter_resolve Hel. cbv beta iota zeta.
  change (count_buckets (topology e) "numa")
    with (Some (complete_nodeset_weight (topology e))).
  cbv beta iota. rewrite Hmem, Hfi.
  destruct (Z.ltb_spec (complete_nodeset_weight (topology e)) 0); [lia|].
  cbn [orb negb Z.eqb].
  rewrite assign_buckets_out_of_range; [done|done|].
  exists c, d. split; [done|]. rewrite length_replicate, Z2Nat.id by done.
  split; [|done].
  unfold target, affinity_domain in *.
  destruct (pci_of c) as [pci|]; [|done].
  destruct (get_pcidev_by_busid _ pci) as [dev|]; [|done].
  by destruct (Z.eqb_spec (complete_nodeset_weight (topology e)) 1).
Qed.

(** X14. The thread's domain at the entry point, policy numa, two or more
    buckets built and none empty.  If the binding query fails the call
    returns -1 with two diagnostics and touches nothing persistent, under
    every NIC policy.  If the thread's domain number is not below the
    number of buckets the [assert] of line 215 stops the program; a
    negative one passes the [assert] and indexes [buckets] below its
    start. *)
Theorem numa_thread_domain e a nic_policy w buckets :
  eligible a ->
  calloc_null e = false ->
  fi_getinfo_ret e = 0 ->
  2 <= complete_nodeset_weight (topology e) ->
  assign_buckets (topology e) (complete_nodeset_weight (topology e))
    (fi_getinfo_info e)
    (replicate (Z.to_nat (complete_nodeset_weight (topology e))) [])
  = Assigned buckets ->
  first_empty_bucket 0 buckets = None ->
  (last_cpu_first_node (topology e) = None ->
   exists w',
     mochi_plumber_resolve_nic e a "numa" nic_policy w
     = Returns (-1, None) w'
     /\ err_stream w'
        = err_stream w ++ [LastCpuLocationFailure; FailedToSelectNic]
     /\ persistent_state w' = persistent_state w
     /\ fd_table w' = fd_table w)
  /\ (forall d, last_cpu_first_node (topology e) = Some d ->
        complete_nodeset_weight (topology e) <= d ->
        mochi_plumber_resolve_nic e a "numa" nic_policy w
        = Crashes AssertionFailure)
  /\ (forall d, last_cpu_first_node (topology e) = Some d ->
        d < 0 ->
        mochi_plumber_resolve_nic e a "numa" nic_policy w
        = Crashes OutOfBounds).
Proof.
  intros Hel Hmem Hfi Hw Has Hem.
  assert (Hrun : mochi_plumber_resolve_nic e a "numa" nic_policy w
    = match select_nic e "numa" nic_policy
              (complete_nodeset_weight (topology e)) buckets
              (after_enumeration w) with
      | Crashes why => Crashes why
      | Returns (ret, selected_nic) w' =>
          if ret <? 0 then
            Returns (-1, None)
              (Sys.hwloc_topology_destroy (eprint FailedToSelectNic w'))
          else
            match selected_nic with
            | Some name =>
                Returns (0, Some (a +:+ name))
                  (Sys.hwloc_topology_destroy w')
            | None => Crashes OutOfBounds
            end
      end).
  { enter_resolve Hel. cbv beta iota zeta.
    change (count_buckets (topology e) "numa")
      with (Some (complete_nodeset_weight (topology e))).
    cbv beta iota. rewrite Hmem, Hfi.
    destruct (Z.ltb_spec (complete_nodeset_weight (topology e)) 0); [lia|].
    cbn [orb negb Z.eqb]. by rewrite Has, Hem. }
  rewrite Hrun. unfold select_nic, select_bucket.
  destruct (Z.eqb_spec (complete_nodeset_weight (topology e)) 1); [lia|].
  cbn [String.eqb Ascii.eqb Bool.eqb].
  split; [|split].
  - intros ->. eexists. split; [done|]. cbn. by rewrite <- app_assoc.
  - intros d -> Hd.
    by destruct (Z.ltb_spec d (complete_nodeset_weight (topology e)));
      [lia|].
  - intros d -> Hd.
    destruct (Z.ltb_spec d (complete_nodeset_weight (topology e))); [|lia].
    rewrite index_None_out by lia. done.
Qed.

(** ** The policy all, end to end *)

(** The one bucket of the policy all on a topology that knows every
    enumerated NIC. *)
Lemma all_bucket t infos :
  (forall c pci, c ∈ infos -> pci_of c = Some pci ->
     is_Some (get_pcidev_by_busid t pci)) ->
  assign_buckets t 1 infos (replicate (Z.to_nat 1) [])
  = Assigned [pci_nics infos].
Proof.
  intros Hfound.
  destruct (assign_buckets_spec t 1 infos (replicate (Z.to_nat 1) []))
    as (bs' & Hrun & Hlen & Hget).
  { intros c Hc [pci Hpci]. exists 0. split; [|simpl; lia].
    unfold target. rewrite Hpci.
    by destruct (Hfound c pci Hc Hpci) as [dev ->]. }
  rewrite Hrun. f_equal.
  specialize (Hget 0%nat [] eq_refl).
  destruct bs' as [|b [|? ?]]; try discriminate.
  injection Hget as ->. f_equal. unfold assigned_to, pci_nics.
  f_equal. apply filter_ext_in. intros c Hc. unfold target.
  destruct (pci_of c) as [pci|] eqn:Hpci.
  - destruct (Hfound c pci Hc Hpci) as [dev ->]. by split; eauto.
  - split; [done|]. by intros [? ?].
Qed.

(** The entry point under the policy all, up to the call of [select_nic],
    when the bucket array is allocated, the enumeration succeeds, every
    NIC is known to the topology and one at least has PCI bus data. *)
Lemma resolve_all_reaches_select e a nic_policy w :
  eligible a ->
  calloc_null e = false ->
  fi_getinfo_ret e = 0 ->
  (forall c pci, c ∈ fi_getinfo_info e -> pci_of c = Some pci ->
     is_Some (get_pcidev_by_busid (topology e) pci)) ->
  pci_nics (fi_getinfo_info e) <> [] ->
  forall ret out w',
    mochi_plumber_resolve_nic e a "all" nic_policy w = Returns (ret, out) w'
    <-> (exists sret sout ws,
           select_nic e "all" nic_policy 1 [pci_nics (fi_getinfo_info e)]
             (after_enumeration w) = Returns (sret, sout) ws
           /\ (sret < 0 /\ ret = -1 /\ out = None
               /\ w' = Sys.hwloc_topology_destroy
                         (eprint FailedToSelectNic ws)
               \/ 0 <= sret /\ ret = 0
                  /\ (exists name, sout = Some name
                                   /\ out = Some (a +:+ name))
                  /\ w' = Sys.hwloc_topology_destroy ws)).
Proof.
  intros Hel Hmem Hfi Hfound Hne ret out w'.
  pose proof (all_bucket _ _ Hfound) as Has.
  assert (Hem : first_empty_bucket 0 [pci_nics (fi_getinfo_info e)] = None).
  { cbn. destruct (pci_nics (fi_getinfo_info e)); [done|].
    unfold num_nics. cbn [length].
    by destruct (Z.ltb_spec (Z.of_nat (S (length l))) 1); [lia|]. }
  rewrite resolve_exit_path by done. split.
  - intros Hpath.
    inversion Hpath as [Hnb | nb Hnb Hmem' | nb Hnb Hmem' Hfi'
      | nb name Hnb Hmem' Hfi' Has' | nb bs i Hnb Hmem' Hfi' Has' Hem'
      | nb bs sret sout ws Hnb Hmem' Hfi' Has' Hem' Hsel Hneg
      | nb bs sret name ws Hnb Hmem' Hfi' Has' Hem' Hsel Hpos];
      subst; try discriminate; try injection Hnb as <-;
      try (cbn in Hmem'; congruence); try congruence.
    + assert (bs = [pci_nics (fi_getinfo_info e)]) as -> by congruence.
      exists sret, sout, ws. split; [done|]. left. by auto.
    + assert (bs = [pci_nics (fi_getinfo_info e)]) as -> by congruence.
      exists sret, (Some name), ws. split; [done|]. right.
      split; [done|]. split; [done|]. split; [by eauto|done].
  - intros (sret & sout & ws & Hsel
            & [(Hneg & -> & -> & ->)|(Hpos & -> & (name & -> & ->) & ->)]).
    + by eapply ExitSelectFailed.
    + by eapply ExitResolved.
Qed.

(** X15. Rotation at the entry point.  Policy all, policy roundrobin, an
    eligible address, no failing call, a topology that knows every
    enumerated NIC, and [N >= 2] NICs with PCI bus data: with the counter
    file of bucket 0 holding [c] (from -1 up, -1 when it is absent) the
    call returns 0 and the address followed by the name of NIC number
    [(c + 1) mod N] of the enumeration, stores that number, and ends with
    no lock held on the file and the topology released. *)
Theorem all_roundrobin_end_to_end e a w :
  eligible a ->
  calloc_null e = false ->
  fi_getinfo_ret e = 0 ->
  no_io_error e ->
  (forall c pci, c ∈ fi_getinfo_info e -> pci_of c = Some pci ->
     is_Some (get_pcidev_by_busid (topology e) pci)) ->
  2 <= num_nics (pci_nics (fi_getinfo_info e)) ->
  -1 <= counter_value w 0 < CInt.INT_MAX ->
  let next :=
    (counter_value w 0 + 1) mod num_nics (pci_nics (fi_getinfo_info e)) in
  exists name w',
    mochi_plumber_resolve_nic e a "all" "roundrobin" w
    = Returns (0, Some (a +:+ name)) w'
    /\ index (pci_nics (fi_getinfo_info e)) next = Some name
    /\ counter_value w' 0 = next
    /\ (0 ∉ held_locks w')
    /\ live_topologies w' = live_topologies w.
Proof.
  intros Hel Hmem Hfi (Hmk & Hop & _ & Hrd & Hwr) Hfound HN Hc next.
  set (b := pci_nics (fi_getinfo_info e)) in *.
  assert (Hne : b <> []).
  { intros Hb. rewrite Hb in HN. unfold num_nics in HN. simpl in HN. lia. }
  destruct (roundrobin_next e 0 b (after_enumeration w))
    as (name & Hname & Hcall); try done; [lia|].
  change (counter_value (after_enumeration w) 0) with (counter_value w 0)
    in Hname, Hcall.
  fold next in Hname, Hcall.
  exists name. eexists. split.
  - apply resolve_all_reaches_select; try done.
    exists 0, (Some name), (after_roundrobin 0 next (after_enumeration w)).
    split.
    + rewrite (select_nic_roundrobin_dispatch e "all" 1 [b] _ 0 b);
        [exact Hcall|reflexivity|reflexivity|lia].
    + right. split; [done|]. split; [done|]. split; [by eauto|done].
  - split; [done|].
    assert (Hrange : 0 <= next < num_nics b)
      by (apply Z.mod_pos_bound; lia).
    split; [|split].
    + change (counter_value
                (Sys.hwloc_topology_destroy
                   (after_roundrobin 0 next (after_enumeration w))) 0)
        with (counter_value
                (after_roundrobin 0 next (after_enumeration w)) 0).
      apply counter_value_after.
      assert (next <= counter_value w 0 + 1) by (apply Z.mod_le; lia).
      unfold CInt.INT_MIN, CInt.INT_MAX in *. lia.
    + cbn. set_solver.
    + cbn. done.
Qed.

(** X16. The policy random at the entry point.  Policy all, policy random,
    an eligible address, the enumeration successful, a topology that knows
    every enumerated NIC, [N >= 1] NICs with PCI bus data and [rand()] not
    negative: the call returns 0 and the address followed by the name of
    NIC number [rand() mod N] of the enumeration (the only NIC when
    [N = 1], where [rand] is not called), with no file touched. *)
Theorem all_random_end_to_end e a w :
  eligible a ->
  calloc_null e = false ->
  fi_getinfo_ret e = 0 ->
  (forall c pci, c ∈ fi_getinfo_info e -> pci_of c = Some pci ->
     is_Some (get_pcidev_by_busid (topology e) pci)) ->
  1 <= num_nics (pci_nics (fi_getinfo_info e)) ->
  0 <= rand_value e ->
  exists name w',
    mochi_plumber_resolve_nic e a "all" "random" w
    = Returns (0, Some (a +:+ name)) w'
    /\ index (pci_nics (fi_getinfo_info e))
         (rand_value e mod num_nics (pci_nics (fi_getinfo_info e)))
       = Some name
    /\ persistent_state w' = persistent_state w
    /\ fd_table w' = fd_table w.
Proof.
  intros Hel Hmem Hfi Hfound HN Hr.
  set (b := pci_nics (fi_getinfo_info e)) in *.
  assert (Hne : b <> []).
  { intros Hb. rewrite Hb in HN. unfold num_nics in HN. simpl in HN. lia. }
  assert (Hsel : exists name,
    select_nic e "all" "random" 1 [b] (after_enumeration w)
    = Returns (0, Some name) (after_enumeration w)
    /\ index b (rand_value e mod num_nics b) = Some name).
  { unfold select_nic.
    change (select_bucket (topology e) "all" 1 (after_enumeration w))
      with (Returns (inr 0 : Z + Z) (after_enumeration w)).
    cbv beta iota. change (index [b] 0) with (Some b). cbv beta iota.
    destruct (Z.eqb_spec (num_nics b) 1) as [H1|H1].
    - rewrite H1, Z.mod_1_r.
      destruct (index b 0) as [name|] eqn:H0; [by exists name|].
      destruct (index_is_Some b 0) as [? ?]; [|congruence].
      unfold num_nics in H1. lia.
    - cbn [String.eqb Ascii.eqb Bool.eqb].
      unfold select_nic_random.
      destruct (Z.eqb_spec (num_nics b) 0); [lia|].
      rewrite rem_mod by lia.
      destruct (index_is_Some b (rand_value e mod num_nics b))
        as [name Hname];
        [apply Z.mod_pos_bound; unfold num_nics in *; lia|].
      exists name. by rewrite Hname. }
  destruct Hsel as (name & Hsel & Hname).
  exists name. eexists. split.
  - apply resolve_all_reaches_select; try done.
    exists 0, (Some name), (after_enumeration w). split; [exact Hsel|].
    right. split; [done|]. split; [done|]. split; [by eauto|done].
  - by split.
Qed.

(** ** Instances of the further properties *)

Ltac known_nics :=
  let c := fresh "c" in
  let pci := fresh "pci" in
  let Hc := fresh "Hc" in
  let Hpci := fresh "Hpci" in
  intros c pci Hc Hpci;
  repeat (apply elem_of_cons in Hc as [->|Hc];
          [cbv in Hpci;
           first [discriminate
                 | injection Hpci as <-; eexists; reflexivity]|]);
  by apply elem_of_nil in Hc.

Lemma roundrobin_checked_failures_witness :
  (exists w',
     select_nic_roundrobin (Example.faulty [] true false false false) 0
       ["cxi0"; "cxi1"]%string Example.boot = Returns (-1, None) w'
     /\ persistent_state w' = persistent_state Example.boot
     /\ fd_table w' = fd_table Example.boot
     /\ err_stream w'
        = err_stream Example.boot ++ [Perror "mkdir"; FailedToCreateDir])
  /\ (exists w',
        select_nic_roundrobin (Example.faulty [] false true false false) 0
          ["cxi0"; "cxi1"]%string Example.boot = Returns (-1, None) w'
        /\ counter_files w' = counter_files Example.boot
        /\ fd_table w' = fd_table Example.boot
        /\ held_locks w' = held_locks Example.boot
        /\ err_stream w'
           = err_stream Example.boot
             ++ [Perror "open"; FailedToOpen 0; Perror "pread";
                 FailedToRead 0])
  /\ (exists w',
        select_nic_roundrobin (Example.faulty [] false false false true) 0
          ["cxi0"; "cxi1"]%string Example.boot = Returns (-1, None) w'
        /\ counter_value w' 0 = counter_value Example.boot 0
        /\ held_locks w' = held_locks Example.boot ∖ {[0]}
        /\ err_stream w'
           = err_stream Example.boot ++ [Perror "pwrite"; FailedToWrite 0]).
Proof.
  split; [|split].
  - apply (proj1 (roundrobin_checked_failures
                    (Example.faulty [] true false false false) 0
                    ["cxi0"; "cxi1"]%string Example.boot)).
    reflexivity.
  - apply (proj1 (proj2 (roundrobin_checked_failures
                    (Example.faulty [] false true false false) 0
                    ["cxi0"; "cxi1"]%string Example.boot)));
      reflexivity.
  - apply (proj1 (proj2 (proj2 (roundrobin_checked_failures
                    (Example.faulty [] false false false true) 0
                    ["cxi0"; "cxi1"]%string Example.boot))));
      try reflexivity.
    right. split; [reflexivity|]. vm_compute. discriminate.
Defined.

Lemma roundrobin_other_buckets_witness :
  counter_files
    (after_roundrobin 0 0 Example.short_file) !! 1
  = counter_files Example.short_file !! 1.
Proof.
  apply (roundrobin_other_buckets
           (Example.node Example.one_domain [] false false) 0
           ["cxi0"]%string Example.short_file (0, Some "cxi0"%string)).
  - vm_compute. reflexivity.
  - discriminate.
Defined.

Lemma roundrobin_cycle_witness :
  exists w',
    roundrobin_calls (Example.node Example.one_domain [] false false) 0
      ["cxi0"; "cxi1"; "cxi2"]%string 3 Example.boot
    = Returns [(0, Some "cxi0"); (0, Some "cxi1"); (0, Some "cxi2")]%string
        w'
    /\ counter_value w' 0 = 2.
Proof.
  apply (proj2 (roundrobin_cycle
                  (Example.node Example.one_domain [] false false) 0
                  ["cxi0"; "cxi1"; "cxi2"]%string
                  ltac:(repeat split; reflexivity)
                  ltac:(vm_compute; split; discriminate))
           Example.boot).
  reflexivity.
Defined.

Lemma roundrobin_corrupt_counter_witness :
  select_nic_roundrobin (Example.node Example.one_domain [] false false) 0
    ["cxi0"; "cxi1"]%string Example.short_file
  = Crashes OutOfBounds.
Proof.
  assert (Hc : counter_value Example.short_file 0 = -256)
    by (vm_compute; reflexivity).
  apply roundrobin_corrupt_counter; try reflexivity.
  - vm_compute. discriminate.
  - rewrite Hc. intros [q Hq].
    change (num_nics ["cxi0"; "cxi1"]%string) with 2 in Hq. lia.
Defined.

Lemma random_draw_witness :
  exists name,
    select_nic_random (Example.faulty [] false false false false) 0
      ["cxi0"; "cxi1"; "cxi2"]%string Example.boot
    = Returns (0, Some name) Example.boot
    /\ index ["cxi0"; "cxi1"; "cxi2"]%string (7 mod 3) = Some name
    /\ 0 <= 7 mod 3 < 3.
Proof.
  apply (random_draw (Example.faulty [] false false false false) 0
           ["cxi0"; "cxi1"; "cxi2"]%string Example.boot).
  - vm_compute. discriminate.
  - vm_compute. discriminate.
Defined.

Lemma resolve_status_and_output_witness :
  (-1 = 0 \/ -1 = -1 \/ (-1 = 0 /\ -1 <> 0))
  /\ (-1 = 0 <-> is_Some (@None string))
  /\ (forall o, @None string = Some o ->
        exists suffix, o = "cxi://" +:+ suffix).
Proof.
  apply (resolve_status_and_output
           (Example.node Example.one_domain Example.two_nics false true)
           "cxi://" "all" "roundrobin" Example.boot (-1) None
           (Sys.hwloc_topology_destroy
              (eprint FailedToSelectNic
                 (set_held_locks ∅
                    (eprint (FailedToRead 0)
                       (eprint (Perror "pread")
                          (set_held_locks {[0]}
                             (set_fd_table {[3 := 0]}
                                (set_counter_files {[0 := []]}
                                   (set_scratch_dir true
                                      (after_enumeration
                                         Example.boot))))))))))).
  vm_compute. reflexivity.
Defined.

Lemma resolved_nic_is_enumerated_witness :
  exists c pci,
    c ∈ Example.two_nics
    /\ pci_of c = Some pci
    /\ is_Some (get_pcidev_by_busid Example.one_domain pci)
    /\ "cxi://cxi0"%string = "cxi://" +:+ domain_attr_name c.
Proof.
  apply (resolved_nic_is_enumerated
           (Example.node Example.one_domain Example.two_nics false false)
           "cxi://" "all" "roundrobin" Example.boot "cxi://cxi0"
           (Sys.hwloc_topology_destroy
              (after_roundrobin 0 0 (after_enumeration Example.boot)))
           eligible_cxi).
  vm_compute. reflexivity.
Defined.

Lemma resolve_output_passes_through_witness :
  mochi_plumber_resolve_nic
    (Example.node Example.two_domains [] true true)
    "cxi://cxi0" "numa" "random" Example.short_file
  = Returns (0, Some "cxi://cxi0"%string) Example.short_file.
Proof.
  apply (resolve_output_passes_through
           (Example.node Example.one_domain Example.two_nics false false)
           "cxi://" "all" "roundrobin" Example.boot "cxi://cxi0"
           (Sys.hwloc_topology_destroy
              (after_roundrobin 0 0 (after_enumeration Example.boot)))
           eligible_cxi).
  - intros name Hname.
    change (pci_nics (fi_getinfo_info
              (Example.node Example.one_domain Example.two_nics
                 false false)))
      with ["cxi0"; "cxi1"]%string in Hname.
    repeat (apply elem_of_cons in Hname as [->|Hname];
            [eexists; split; [reflexivity|discriminate]|]).
    by apply elem_of_nil in Hname.
  - vm_compute. reflexivity.
Defined.

Lemma only_roundrobin_touches_files_witness :
  let w' :=
    Sys.hwloc_topology_destroy
      (eprint FailedToSelectNic
         (eprint (UnknownNicPolicy "fastest")
            (after_enumeration Example.short_file))) in
  persistent_state w' = persistent_state Example.short_file
  /\ fd_table w' = fd_table Example.short_file
  /\ held_locks w' = held_locks Example.short_file.
Proof.
  cbv zeta.
  apply (only_roundrobin_touches_files
           (Example.faulty Example.two_nics false false false false)
           "cxi://" "all" "fastest" Example.short_file (-1, None)).
  - discriminate.
  - vm_compute. reflexivity.
Defined.

Lemma single_numa_node_is_all_witness :
  mochi_plumber_resolve_nic
    (Example.node Example.one_domain Example.two_nics false false)
    "cxi://" "numa" "roundrobin" Example.boot
  = mochi_plumber_resolve_nic
      (Example.node Example.one_domain Example.two_nics false false)
      "cxi://" "all" "roundrobin" Example.boot.
Proof. apply single_numa_node_is_all. reflexivity. Defined.

Lemma numa_locality_witness :
  exists c d,
    c ∈ Example.two_nics
    /\ "cxi://cxi1"%string = "cxi://" +:+ domain_attr_name c
    /\ affinity_domain Example.two_domains c = Some d
    /\ last_cpu_first_node Example.two_domains = Some d.
Proof.
  apply (numa_locality
           (Example.node Example.two_domains Example.two_nics false false)
           "cxi://" "roundrobin" Example.boot "cxi://cxi1" Example.boot
           eligible_cxi).
  - vm_compute. discriminate.
  - vm_compute. reflexivity.
Defined.

Lemma numa_needs_nic_in_every_domain_witness :
  exists i w',
    mochi_plumber_resolve_nic
      (Example.node Example.two_domains [Example.pci_nic "cxi0" 0]
         false false)
      "cxi://" "numa" "random" Example.boot
    = Returns (-1, None) w'
    /\ 0 <= i <= 1
    /\ nics_of_domain Example.two_domains i [Example.pci_nic "cxi0" 0] = []
    /\ err_stream w' = err_stream Example.boot ++ [BucketHasNoNics i]
    /\ persistent_state w' = persistent_state Example.boot.
Proof.
  apply (numa_needs_nic_in_every_domain
           (Example.node Example.two_domains [Example.pci_nic "cxi0" 0]
              false false)
           "cxi://" "random" Example.boot 1 eligible_cxi);
    try reflexivity.
  - known_nics.
  - intros c d Hc Hd.
    repeat (apply elem_of_cons in Hc as [->|Hc];
            [vm_compute in Hd; injection Hd as <-;
             vm_compute; split; [discriminate|reflexivity]|]).
    by apply elem_of_nil in Hc.
  - vm_compute. split; [discriminate|reflexivity].
Defined.

Lemma sparse_domain_numbers_overflow_witness :
  mochi_plumber_resolve_nic
    (Example.node Example.sparse_domains Example.two_nics false false)
    "cxi://" "numa" "roundrobin" Example.boot
  = Crashes OutOfBounds.
Proof.
  apply (sparse_domain_numbers_overflow _ _ _ _ eligible_cxi);
    try reflexivity.
  - vm_compute. discriminate.
  - vm_compute. discriminate.
  - known_nics.
  - exists (Example.pci_nic "cxi1" 1), 8. split; [|split].
    + apply elem_of_cons. right. apply elem_of_cons. by left.
    + reflexivity.
    + vm_compute. intros [_ H]. discriminate.
Defined.

Lemma numa_thread_domain_witness :
  exists w',
    mochi_plumber_resolve_nic
      (Example.node Example.unbound_domains Example.two_nics false false)
      "cxi://" "numa" "roundrobin" Example.boot
    = Returns (-1, None) w'
    /\ err_stream w'
       = err_stream Example.boot
         ++ [LastCpuLocationFailure; FailedToSelectNic]
    /\ persistent_state w' = persistent_state Example.boot
    /\ fd_table w' = fd_table Example.boot.
Proof.
  apply (proj1 (numa_thread_domain
                  (Example.node Example.unbound_domains Example.two_nics
                     false false)
                  "cxi://" "roundrobin" Example.boot
                  [["cxi0"]; ["cxi1"]]%string eligible_cxi
                  eq_refl eq_refl
                  ltac:(vm_compute; discriminate) eq_refl eq_refl)).
  reflexivity.
Defined.

Lemma all_roundrobin_end_to_end_witness :
  exists name w',
    mochi_plumber_resolve_nic
      (Example.node Example.one_domain Example.two_nics false false)
      "cxi://" "all" "roundrobin" Example.boot
    = Returns (0, Some ("cxi://" +:+ name)) w'
    /\ index ["cxi0"; "cxi1"]%string 0 = Some name
    /\ counter_value w' 0 = 0
    /\ (0 ∉ held_locks w')
    /\ live_topologies w' = live_topologies Example.boot.
Proof.
  apply (all_roundrobin_end_to_end
           (Example.node Example.one_domain Example.two_nics false false)
           "cxi://" Example.boot eligible_cxi eq_refl eq_refl).
  - repeat split; reflexivity.
  - known_nics.
  - vm_compute. discriminate.
  - vm_compute. split; [discriminate|reflexivity].
Defined.

Lemma all_random_end_to_end_witness :
  exists name w',
    mochi_plumber_resolve_nic
      (Example.faulty Example.two_nics false false false false)
      "cxi://" "all" "random" Example.boot
    = Returns (0, Some ("cxi://" +:+ name)) w'
    /\ index ["cxi0"; "cxi1"]%string (7 mod 2) = Some name
    /\ persistent_state w' = persistent_state Example.boot
    /\ fd_table w' = fd_table Example.boot.
Proof.
  apply (all_random_end_to_end
           (Example.faulty Example.two_nics false false false false)
           "cxi://" Example.boot eligible_cxi eq_refl eq_refl).
  - known_nics.
  - vm_compute. discriminate.
  - vm_compute. discriminate.
Defined.
